(** * esep-self-employment-hub: the public category page and the admin
      panchayath screen

    A shallow embedding of [CategoriesPage] (the public category listing) and
    of [PanchayathsManagement] (the admin reference-data screen), and the
    properties of the specification that hold of them.

    The components are TypeScript/React.  Their pure parts (the re-sort of the
    fetched categories, the fee arithmetic, the grouping of panchayaths) are
    Rocq functions; their handlers are written in a small state-and-trace
    monad: the state is the component's React state together with the shared
    query cache and the realtime channels, the trace lists what leaves the
    component (backend requests, toasts, confirmation prompts). *)

From Stdlib Require Import ZArith NArith List String Ascii Bool Lia.
From Stdlib Require Import Permutation Sorted.
From Stdlib Require Import Floats.SpecFloat.
From Stdlib Require OrderedTypeEx.
Import ListNotations.

Set Implicit Arguments.

(** ** The JavaScript fragment the two components rely on *)

Module JS.

Open Scope Z_scope.

(** *** Numbers

    A JavaScript Number is an IEEE-754 binary64 value.  [spec_float] with
    53 bits of precision and maximal exponent 1024 is exactly that format, and
    the operations below round to nearest, ties to even, as the language
    requires. *)

Definition prec : Z := 53.
Definition emax : Z := 1024.

Definition Number : Type := spec_float.

(** The Number denoted by an integer literal. *)
Definition Number_of_Z (n : Z) : Number := binary_normalize prec emax n 0 false.

Definition Number_sub : Number -> Number -> Number := SFsub prec emax.
Definition Number_mul : Number -> Number -> Number := SFmul prec emax.
Definition Number_div : Number -> Number -> Number := SFdiv prec emax.

(** [x > y]; false as soon as one side is NaN. *)
Definition Number_gt (x y : Number) : bool := SFltb y x.

(** [x === y] on Numbers: NaN differs from itself, [+0 === -0]. *)
Definition Number_eq (x y : Number) : bool := SFeqb x y.

(** [Math.round]: the integer nearest to [x], a tie going towards
    +Infinity; NaN, the infinities and the zeros are returned as they are, and
    a result of zero keeps the sign of [x].  A finite binary64 value with a
    non-negative exponent is an integer already; otherwise
    [floor (x + 1/2)] is computed exactly from mantissa and exponent. *)
Definition Math_round (x : Number) : Number :=
  match x with
  | S754_finite s m e =>
      if 0 <=? e then x
      else
        let n := (2 * cond_Zopp s (Z.pos m) + 2 ^ (- e)) / 2 ^ (1 - e) in
        if n =? 0 then S754_zero s else Number_of_Z n
  | _ => x
  end.

(** *** Arrays *)

(** [arr.indexOf(x)] on an array of strings: the first index holding a
    string equal to [x], or [-1]. *)
Fixpoint indexOf_from (arr : list string) (x : string) (i : Z) : Z :=
  match arr with
  | [] => -1
  | y :: rest => if String.eqb y x then i else indexOf_from rest x (i + 1)
  end.

Definition indexOf (arr : list string) (x : string) : Z := indexOf_from arr x 0.

(** [arr.includes(x)]. *)
Definition includes (arr : list string) (x : string) : bool :=
  existsb (fun y => String.eqb y x) arr.

Section ArraySort.

Variable A : Type.

(** The comparator handed to [sort]: negative when its first argument goes
    first, positive when its second does, zero when it does not care. *)
Variable comparefn : A -> A -> Z.

(** [x] stood before every element of the sorted [l] in the original array:
    it moves right past the elements that must precede it and stops in front
    of the first one the comparator does not put before it. *)
Fixpoint sort_insert (x : A) (l : list A) : list A :=
  match l with
  | [] => [x]
  | y :: rest =>
      if comparefn x y <=? 0 then x :: y :: rest
      else y :: sort_insert x rest
  end.

(** [Array.prototype.sort] is a stable sort (ECMAScript 2019 onwards): for a
    consistent comparator its result is the one permutation that is ordered by
    the comparator and keeps equal elements in their original order, which
    is what this insertion sort computes. *)
Fixpoint Array_sort (l : list A) : list A :=
  match l with
  | [] => []
  | x :: rest => sort_insert x (Array_sort rest)
  end.

End ArraySort.

(** *** Plain objects used as dictionaries

    An object created by the literal [{}] is represented by its own
    enumerable string-keyed properties in the order of their creation.  Its
    prototype is [Object.prototype]. *)

Definition JSObject (V : Type) : Type := list (string * V).

Definition empty_object {V : Type} : JSObject V := [].

Section Objects.

Variable V : Type.

Fixpoint get_own (o : JSObject V) (k : string) : option V :=
  match o with
  | [] => None
  | (k', v) :: rest => if String.eqb k' k then Some v else get_own rest k
  end.

(** [o[k] = v] for an ordinary key: an existing own property keeps its
    place, a new one is created last. *)
Fixpoint set_own (o : JSObject V) (k : string) (v : V) : JSObject V :=
  match o with
  | [] => [(k, v)]
  | (k', v') :: rest =>
      if String.eqb k' k then (k', v) :: rest else (k', v') :: set_own rest k v
  end.

(** The names every plain object inherits from [Object.prototype]; each is
    bound there to a function, and [__proto__] reads as [Object.prototype]
    itself. *)
Definition Object_prototype_names : list string :=
  [ "constructor"; "__defineGetter__"; "__defineSetter__"; "hasOwnProperty";
    "__lookupGetter__"; "__lookupSetter__"; "isPrototypeOf";
    "propertyIsEnumerable"; "toString"; "valueOf"; "__proto__";
    "toLocaleString" ]%string.

(** What the property read [o[k]] finds. *)
Inductive Property : Type :=
| Own (v : V)        (* an own property of the object *)
| Inherited          (* a function or object found on Object.prototype *)
| Undefined.

Definition Get (o : JSObject V) (k : string) : Property :=
  match get_own o k with
  | Some v => Own v
  | None => if includes Object_prototype_names k then Inherited else Undefined
  end.

End Objects.

Arguments Inherited {V}.
Arguments Undefined {V}.

(** *** The order of [Object.keys]

    Own keys that are array indices (canonical decimal numerals below
    2^32 - 1) are listed first, in ascending numeric order; all other string
    keys follow in the order of their creation. *)

Definition digit_of (c : ascii) : option N :=
  let n := N_of_ascii c in
  if ((48 <=? n) && (n <=? 57))%N then Some (n - 48)%N else None.

Fixpoint parse_digits (s : string) (acc : N) : option N :=
  match s with
  | EmptyString => Some acc
  | String c rest =>
      match digit_of c with
      | Some d => parse_digits rest (10 * acc + d)%N
      | None => None
      end
  end.

Definition arrayIndex (s : string) : option N :=
  match s with
  | EmptyString => None
  | String c rest =>
      if (Ascii.eqb c "0" && negb (String.eqb rest EmptyString))%bool then None
      else
        match parse_digits s 0 with
        | Some n => if (n <? 2 ^ 32 - 1)%N then Some n else None
        | None => None
        end
  end.

Definition isArrayIndex (s : string) : bool :=
  match arrayIndex s with Some _ => true | None => false end.

Fixpoint insert_index (k : N * string) (l : list (N * string)) : list (N * string) :=
  match l with
  | [] => [k]
  | k' :: rest =>
      if (fst k <=? fst k')%N then k :: k' :: rest else k' :: insert_index k rest
  end.

Fixpoint index_keys (ks : list string) : list (N * string) :=
  match ks with
  | [] => []
  | k :: rest =>
      match arrayIndex k with
      | Some n => insert_index (n, k) (index_keys rest)
      | None => index_keys rest
      end
  end.

Definition Object_keys {V : Type} (o : JSObject V) : list string :=
  map snd (index_keys (map fst o))
  ++ filter (fun k => negb (isArrayIndex k)) (map fst o).

(** *** Exceptions *)

Inductive Thrown : Type :=
| TypeError (what : string)      (* raised by the language itself *)
| BackendError (message : string).   (* an error object rethrown by the code *)

Inductive Completion (A : Type) : Type :=
| Normal (a : A)
| Throw (e : Thrown).

Arguments Throw {A}.

(** [arr.reduce(callback, initial)]; an exception raised by the callback
    ends the reduction. *)
Fixpoint reduce {A B : Type} (callback : B -> A -> Completion B)
  (arr : list A) (acc : B) : Completion B :=
  match arr with
  | [] => Normal acc
  | x :: rest =>
      match callback acc x with
      | Normal acc' => reduce callback rest acc'
      | Throw e => Throw e
      end
  end.

(** [arr.map(callback)] for a callback that may raise. *)
Fixpoint map_array {A B : Type} (callback : A -> Completion B)
  (arr : list A) : Completion (list B) :=
  match arr with
  | [] => Normal []
  | x :: rest =>
      match callback x with
      | Normal y =>
          match map_array callback rest with
          | Normal ys => Normal (y :: ys)
          | Throw e => Throw e
          end
      | Throw e => Throw e
      end
  end.

(** The object spread [{ ...o }]: the own properties of [o], copied in the
    order of its keys. *)
Definition spread {V : Type} (o : JSObject V) : JSObject V :=
  flat_map
    (fun k => match get_own o k with Some v => [(k, v)] | None => [] end)
    (Object_keys o).

End JS.

(** ** The public category page *)

Module CategoriesPage.

Import JS.
Open Scope string_scope.
Open Scope Z_scope.

(** A row of the [categories] table as the client receives it. *)
Record Category : Type := mkCategory {
  id : string;
  name : string;
  actual_fee : Number;
  offer_fee : Number;
  is_active : bool;
  is_highlighted : bool;
  popup_image_url : option string;
  qr_image_url : option string;
  created_at : string;
  updated_at : string
}.

(** What [await supabase.from('categories').select('*')...] resolves to:
    [data] is [null] ([None]) or an array of rows, [error] is [null] or an
    error object. *)
Record PostgrestError : Type := mkError { message : string }.

Record Response : Type := mkResponse {
  data : option (list Category);
  error : option PostgrestError
}.

Definition categoryOrder : list string :=
  [ "Pennyekart Free Registration";
    "Pennyekart Paid Registration";
    "Farmelife";
    "Organelife";
    "Foodelife";
    "Entrelife";
    "Job Card" ].

(** The number the comparator computes for each side: the position of the
    name in [categoryOrder], or 999 for a name that is not in it. *)
Definition rank (category : Category) : Z :=
  let index := indexOf categoryOrder (name category) in
  if index =? -1 then 999 else index.

(** The arrow function handed to [data.sort]. *)
Definition comparefn (a b : Category) : Z :=
  let aIndex := indexOf categoryOrder (name a) in
  let bIndex := indexOf categoryOrder (name b) in
  (if aIndex =? -1 then 999 else aIndex) - (if bIndex =? -1 then 999 else bIndex).

(** The body of [queryFn] once the backend has answered:
    [if (error) throw error; return data?.sort(...) || []].  An array is
    truthy, so [|| []] only replaces a missing [data]. *)
Definition queryFn (r : Response) : Completion (list Category) :=
  match error r with
  | Some e => Throw (BackendError (message e))
  | None =>
      Normal match data r with
             | Some d => Array_sort comparefn d
             | None => []
             end
  end.

(** The fee block of a card. *)
Definition savings (category : Category) : Number :=
  Number_sub (actual_fee category) (offer_fee category).

Definition discount (category : Category) : Number :=
  if Number_gt (actual_fee category) (Number_of_Z 0)
  then Math_round
         (Number_mul
            (Number_div
               (Number_sub (actual_fee category) (offer_fee category))
               (actual_fee category))
            (Number_of_Z 100))
  else Number_of_Z 0.

(** What [useQuery] hands to the component: [data] is [undefined] ([None])
    until [queryFn] has returned. *)
Record QueryResult : Type := mkQueryResult {
  categories : option (list Category);
  isLoading : bool;
  failed : bool
}.

(** One rendered card: title, badges and fee block (styling left out). *)
Record Card : Type := mkCard {
  key : string;
  title : string;
  featured : bool;
  free : bool;
  regularFee : Number;
  offerPrice : Number;
  youSave : Number;
  discountPercent : Number;
  registerLink : string
}.

Definition renderCard (category : Category) : Card :=
  {| key := id category;
     title := name category;
     featured := is_highlighted category;
     free := Number_eq (offer_fee category) (Number_of_Z 0);
     regularFee := actual_fee category;
     offerPrice := offer_fee category;
     youSave := savings category;
     discountPercent := discount category;
     registerLink := "/register/" ++ id category |}.

Inductive View : Type :=
| LoadingView
| ErrorView (text : string)
| ListingView (cards : list Card) (emptyState : option string).

Definition render (q : QueryResult) : View :=
  if isLoading q then LoadingView
  else if failed q then ErrorView "Error loading categories. Please try again later."
  else
    ListingView
      match categories q with
      | Some cs => map renderCard cs
      | None => []
      end
      match categories q with
      | Some (_ :: _) => None
      | _ => Some "No categories available at the moment."
      end.

(** The component after a fetch has settled with response [r]. *)
Definition settled (r : Response) : QueryResult :=
  match queryFn r with
  | Normal cs => {| categories := Some cs; isLoading := false; failed := false |}
  | Throw _ => {| categories := None; isLoading := false; failed := true |}
  end.

(** *** Card decoration *)

Definition gradients : list string :=
  [ "from-blue-500 to-purple-600";
    "from-green-500 to-teal-600";
    "from-pink-500 to-rose-600";
    "from-orange-500 to-red-600";
    "from-indigo-500 to-blue-600";
    "from-purple-500 to-pink-600";
    "from-teal-500 to-green-600" ].

(** [index] is the position [Array.prototype.map] hands to its callback;
    [None] stands for [undefined], what an array read out of range gives. *)
Definition getCardGradient (index : nat) (isHighlighted : bool) : option string :=
  if isHighlighted then Some "from-yellow-400 via-yellow-500 to-yellow-600"
  else nth_error gradients (Nat.modulo index (List.length gradients)).

Definition logoMap : JSObject string :=
  [ ("Pennyekart Free Registration",
     "/lovable-uploads/2f3ab11d-f683-42be-a94b-69644f18db08.png");
    ("Pennyekart Paid Registration",
     "/lovable-uploads/2f3ab11d-f683-42be-a94b-69644f18db08.png");
    ("Farmelife", "/lovable-uploads/ea1aea54-6535-4308-b2f7-fc4ce9f476e8.png");
    ("Organelife", "/lovable-uploads/17e9aae4-3476-40e1-a553-cff559b81cbe.png");
    ("Foodelife", "/lovable-uploads/67cb945b-d9cd-4023-9b98-3ad092f86195.png");
    ("Entrelife", "/lovable-uploads/91538157-882e-42fd-b645-446ed5cebe6e.png") ].

(** What [getCategoryLogo] returns: an [img] whose [src] is the looked-up
    value ([None] when that value is not a string but something found on
    [Object.prototype]), or the crown icon. *)
Inductive Logo : Type :=
| LogoImage (src : option string) (alt : string)
| CrownIcon.

(** [const logoUrl = logoMap[categoryName]; if (logoUrl) ... ]: the empty
    string and [undefined] are falsy. *)
Definition getCategoryLogo (categoryName : string) (isHighlighted : bool) : Logo :=
  match Get logoMap categoryName with
  | Own logoUrl =>
      if String.eqb logoUrl "" then CrownIcon
      else LogoImage (Some logoUrl) (categoryName ++ " logo")
  | Inherited => LogoImage None (categoryName ++ " logo")
  | Undefined => CrownIcon
  end.

(** The description paragraph: eight expressions [condition && text], each
    of which renders its text when the condition holds and nothing
    otherwise. *)
Definition describedNames : list string :=
  [ "Pennyekart Free Registration"; "Pennyekart Paid Registration";
    "Farmelife"; "Organelife"; "Foodelife"; "Entrelife"; "Job Card" ].

Definition when (condition : bool) (text : string) : list string :=
  if condition then [text] else [].

Definition description (categoryName : string) : list string :=
  (when (String.eqb categoryName "Pennyekart Free Registration")
     "Free registration for basic Pennyekart services and marketplace access."
   ++ when (String.eqb categoryName "Pennyekart Paid Registration")
        "Premium registration with enhanced features and priority support."
   ++ when (String.eqb categoryName "Farmelife")
        "Comprehensive farming solutions and agricultural services registration."
   ++ when (String.eqb categoryName "Organelife")
        "Organic products certification and marketplace registration."
   ++ when (String.eqb categoryName "Foodelife")
        "Food business licensing and restaurant service registration."
   ++ when (String.eqb categoryName "Entrelife")
        "Entrepreneurship support and business development registration."
   ++ when (String.eqb categoryName "Job Card")
        "Employment registration and job placement services with priority matching."
   ++ when (negb (includes describedNames categoryName))
        "Professional registration service for your business needs.")%list.

End CategoriesPage.

(** ** The fee invariant of the specification

    The specification states the fee block over exact numbers: the savings
    are [actual_fee - offer_fee] and the percentage is
    [round (savings / actual_fee * 100)] when [actual_fee > 0], else 0.  The
    definitions of this module follow those words, for fees that are whole
    numbers, to be compared with what the card computes on doubles; [round]
    is rounding to the nearest integer, a half going up as in [Math.round]. *)

Module FeeInvariant.

Import JS CategoriesPage.
Open Scope Z_scope.










End FeeInvariant.

(** ** The admin panchayath screen *)

Module PanchayathsManagement.

Import JS.
Open Scope string_scope.

(** *** Data *)

(** A row of the [panchayaths] table as the client receives it. *)
Record Panchayath : Type := mkPanchayath {
  id : string;
  name : string;
  district : string;
  created_at : string;
  updated_at : string
}.

(** The [permissions] prop. *)
Record Permissions : Type := mkPermissions {
  canWrite : bool;
  canDelete : bool
}.

Record PostgrestError : Type := mkError { message : string }.

Record Response : Type := mkResponse {
  data : option (list Panchayath);
  error : option PostgrestError
}.

(** *** What leaves the component *)

(** [.eq(column, value)]. *)
Inductive Filter : Type :=
| Filter_eq (column value : string).

(** The rows an [eq('id', v)] filter selects. *)
Definition selects (f : Filter) (row : Panchayath) : bool :=
  match f with
  | Filter_eq column value =>
      if String.eqb column "id" then String.eqb (id row) value
      else if String.eqb column "name" then String.eqb (name row) value
      else if String.eqb column "district" then String.eqb (district row) value
      else if String.eqb column "created_at" then String.eqb (created_at row) value
      else if String.eqb column "updated_at" then String.eqb (updated_at row) value
      else false
  end.

(** The calls made on [supabase.from(table)]; an ordering is a column and
    its [ascending] flag. *)
Inductive Request : Type :=
| Select (table columns : string) (order : list (string * bool))
| Update (table : string) (values : JSObject string) (filter : Filter)
| Insert (table : string) (rows : list (JSObject string))
| Delete (table : string) (filter : Filter).

Record Toast : Type := mkToast {
  title : string;
  description : string;
  destructive : bool
}.

(** A realtime channel with its one [postgres_changes] binding. *)
Record RealtimeChannel : Type := mkChannel {
  topic : string;
  event : string;
  schema : string;
  table : string
}.

Definition QueryKey : Type := list string.

Inductive Effect : Type :=
| Backend (request : Request)        (* a write or read sent to the backend *)
| Fetch (key : QueryKey)             (* the query client starts a fetch of a query *)
| ShowToast (t : Toast)
| Confirm (question : string)        (* window.confirm *)
| PreventDefault                     (* e.preventDefault() *)
| Subscribe (channel : RealtimeChannel)
| RemoveChannel (channel : RealtimeChannel).

Definition isBackendRequest (e : Effect) : bool :=
  match e with
  | Backend _ | Fetch _ => true
  | _ => false
  end.

(** *** The shared query cache *)

Inductive Status : Type := Pending | Success | Errored.

(** The part of the query client the component relies on, with the
    client's default options (no stale time, refetch on mount) and the
    browser online.

    One cached query: [cached] is [None] as long as the query has no data
    ([state.data === undefined]); a [null] answer is the data [Some None].
    [isFetching] says that a fetch of the query is under way, [active] that
    a mounted component observes the query. *)
Record Query : Type := mkQuery {
  queryKey : QueryKey;
  cached : option (option (list Panchayath));
  status : Status;
  isInvalidated : bool;
  isFetching : bool;
  active : bool
}.

Definition hasData (q : Query) : bool :=
  match cached q with
  | Some _ => true
  | None => false
  end.

Definition QueryCache : Type := list Query.

Fixpoint key_eqb (k1 k2 : QueryKey) : bool :=
  match k1, k2 with
  | [], [] => true
  | a :: k1', b :: k2' => String.eqb a b && key_eqb k1' k2'
  | _, _ => false
  end.

(** A query filter matches every query whose key starts with the filter's. *)
Fixpoint key_matches (wanted key : QueryKey) : bool :=
  match wanted, key with
  | [], _ => true
  | a :: wanted', b :: key' => String.eqb a b && key_matches wanted' key'
  | _ :: _, [] => false
  end.

Definition find_query (cache : QueryCache) (key : QueryKey) : option Query :=
  find (fun q => key_eqb (queryKey q) key) cache.

(** Replaces the query stored under [key] by [f] of it, creating it from
    [fresh] first when the cache has none. *)
Fixpoint upsert_query (cache : QueryCache) (key : QueryKey)
  (fresh : Query) (f : Query -> Query) : QueryCache :=
  match cache with
  | [] => [f fresh]
  | q :: rest =>
      if key_eqb (queryKey q) key then f q :: rest
      else q :: upsert_query rest key fresh f
  end.

Definition fresh_query (key : QueryKey) : Query :=
  {| queryKey := key; cached := None; status := Pending;
     isInvalidated := false; isFetching := false; active := false |}.

(** [query.fetch(options, { cancelRefetch })].  While a fetch of the query
    is under way no other is started and the caller gets the promise of the
    one in flight; the exception is a query that has data, asked with
    [cancelRefetch]: its fetch is dropped and replaced.  [starts_fetch] says
    whether a fetch starts, [fetch] is the query afterwards: a fetch that
    starts without data puts the query back to pending. *)
Definition starts_fetch (cancelRefetch : bool) (q : Query) : bool :=
  negb (isFetching q) || (hasData q && cancelRefetch).

Definition fetch (cancelRefetch : bool) (q : Query) : Query :=
  if starts_fetch cancelRefetch q
  then {| queryKey := queryKey q; cached := cached q;
          status := if hasData q then status q else Pending;
          isInvalidated := isInvalidated q;
          isFetching := true;
          active := active q |}
  else q.

(** [query.invalidate()] on the matching queries, then [refetchQueries]
    with type [active]: the observed ones among them are fetched, with
    [cancelRefetch]. *)
Definition mark_stale (q : Query) : Query :=
  {| queryKey := queryKey q; cached := cached q; status := status q;
     isInvalidated := true; isFetching := isFetching q; active := active q |}.

Definition invalidate (wanted : QueryKey) (q : Query) : Query :=
  if key_matches wanted (queryKey q)
  then if active q then fetch true (mark_stale q) else mark_stale q
  else q.

Definition refetched (wanted : QueryKey) (cache : QueryCache) : list Effect :=
  map (fun q => Fetch (queryKey q))
      (filter (fun q => key_matches wanted (queryKey q) && active q
                        && starts_fetch true q) cache).

(** *** The client state *)

Record Client : Type := mkClient {
  isDialogOpen : bool;
  editingPanchayath : option Panchayath;
  formData : JSObject string;
  queryCache : QueryCache;
  channels : list RealtimeChannel
}.

(** Handlers run in a state monad over [Client] that also collects the
    effects they cause, in order. *)
Definition M (A : Type) : Type := Client -> A * Client * list Effect.

Definition ret {A : Type} (a : A) : M A := fun c => (a, c, []).

Definition bind {A B : Type} (m : M A) (k : A -> M B) : M B :=
  fun c =>
    let '(a, c1, t1) := m c in
    let '(b, c2, t2) := k a c1 in
    (b, c2, t1 ++ t2)%list.

Declare Scope handler_scope.
Delimit Scope handler_scope with handler.
Notation "x <- m ;; k" := (bind m (fun x => k))
  (at level 61, m at next level, right associativity) : handler_scope.
Notation "m ;; k" := (bind m (fun _ => k))
  (at level 61, right associativity) : handler_scope.
Open Scope handler_scope.

Definition get : M Client := fun c => (c, c, []).
Definition modify (f : Client -> Client) : M unit := fun c => (tt, f c, []).
Definition emit (e : Effect) : M unit := fun c => (tt, c, [e]).
Definition emit_all (es : list Effect) : M unit := fun c => (tt, c, es).
Definition skip : M unit := ret tt.

(** The state and the trace a handler leaves. *)
Definition state_after {A : Type} (m : M A) (c : Client) : Client := snd (fst (m c)).
Definition trace_of {A : Type} (m : M A) (c : Client) : list Effect := snd (m c).

(** The [useState] setters and the cache update. *)
Definition setIsDialogOpen (open : bool) : M unit :=
  modify (fun c =>
    {| isDialogOpen := open; editingPanchayath := editingPanchayath c;
       formData := formData c; queryCache := queryCache c;
       channels := channels c |}).

Definition setEditingPanchayath (selection : option Panchayath) : M unit :=
  modify (fun c =>
    {| isDialogOpen := isDialogOpen c; editingPanchayath := selection;
       formData := formData c; queryCache := queryCache c;
       channels := channels c |}).

Definition setFormData (update : JSObject string -> JSObject string) : M unit :=
  modify (fun c =>
    {| isDialogOpen := isDialogOpen c; editingPanchayath := editingPanchayath c;
       formData := update (formData c); queryCache := queryCache c;
       channels := channels c |}).

Definition setQueryCache (update : QueryCache -> QueryCache) : M unit :=
  modify (fun c =>
    {| isDialogOpen := isDialogOpen c; editingPanchayath := editingPanchayath c;
       formData := formData c; queryCache := update (queryCache c);
       channels := channels c |}).

Definition setChannels (update : list RealtimeChannel -> list RealtimeChannel) : M unit :=
  modify (fun c =>
    {| isDialogOpen := isDialogOpen c; editingPanchayath := editingPanchayath c;
       formData := formData c; queryCache := queryCache c;
       channels := update (channels c) |}).

(** [{ name: n, district: d }]. *)
Definition form (n d : string) : JSObject string := [("name", n); ("district", d)].

Definition toast (t : Toast) : M unit := emit (ShowToast t).

(** [queryClient.invalidateQueries({ queryKey })]: every matching query is
    marked stale and the observed ones are fetched again, unless their first
    fetch is still under way; cached data is not touched. *)
Definition invalidateQueries (key : QueryKey) : M unit :=
  c <- get ;;
  setQueryCache (map (invalidate key)) ;;
  emit_all (refetched key (queryCache c)).

(** Runs [m] once for every element of [l]. *)
Fixpoint for_each {A : Type} (l : list A) (m : A -> M unit) : M unit :=
  match l with
  | [] => skip
  | x :: rest => m x ;; for_each rest m
  end.

(** *** The list query *)

Definition listKey : QueryKey := ["admin-panchayaths"].

(** The request [queryFn] sends when the query client runs it in a fetch
    of the list query ([Fetch listKey]), and its body once the backend has
    answered: [if (error) throw error; return data]. *)
Definition queryFn_request : Request :=
  Select "panchayaths" "*" [("district", true); ("name", true)].

Definition queryFn (r : Response) : Completion (option (list Panchayath)) :=
  match error r with
  | Some e => Throw (BackendError (message e))
  | None => Normal (data r)
  end.

(** The end of a fetch.  The query client stores what [queryFn] returned;
    once it gives up on a [queryFn] that raises, the query is in error and
    stale, and the cached data is as it was. *)
Definition settle (r : Response) (q : Query) : Query :=
  match queryFn r with
  | Normal d =>
      {| queryKey := queryKey q; cached := Some d; status := Success;
         isInvalidated := false; isFetching := false; active := active q |}
  | Throw _ =>
      {| queryKey := queryKey q; cached := cached q; status := Errored;
         isInvalidated := true; isFetching := false;
         active := active q |}
  end.

Definition fetchSettled (r : Response) : M unit :=
  setQueryCache (fun cache => upsert_query cache listKey (fresh_query listKey) (settle r)).

(** [const { data: panchayaths, isLoading } = useQuery(...)]. *)
Definition panchayaths (c : Client) : option (list Panchayath) :=
  match find_query (queryCache c) listKey with
  | Some q => match cached q with
              | Some d => d
              | None => None
              end
  | None => None
  end.

Definition isLoading (c : Client) : bool :=
  match find_query (queryCache c) listKey with
  | Some q => match status q with Pending => isFetching q | _ => false end
  | None => false
  end.

(** Mounting observes the list query and fetches it, data being stale as
    soon as it is stored (the query sets no [staleTime]); this fetch is asked
    without [cancelRefetch]. *)
Definition observe (q : Query) : Query :=
  fetch false
    {| queryKey := queryKey q; cached := cached q; status := status q;
       isInvalidated := isInvalidated q; isFetching := isFetching q;
       active := true |}.

Definition unobserve (q : Query) : Query :=
  {| queryKey := queryKey q; cached := cached q; status := status q;
     isInvalidated := isInvalidated q; isFetching := isFetching q;
     active := false |}.

Definition useQuery_mount : M unit :=
  c <- get ;;
  setQueryCache (fun cache => upsert_query cache listKey (fresh_query listKey) observe) ;;
  if starts_fetch false
       match find_query (queryCache c) listKey with
       | Some q => q
       | None => fresh_query listKey
       end
  then emit (Fetch listKey)
  else skip.

Definition useQuery_unmount : M unit :=
  setQueryCache (map (fun q => if key_eqb (queryKey q) listKey then unobserve q else q)).

(** *** The realtime subscription *)

Definition changesChannel : RealtimeChannel :=
  {| topic := "panchayaths-changes"; event := "*";
     schema := "public"; table := "panchayaths" |}.

Definition channel_eqb (a b : RealtimeChannel) : bool :=
  String.eqb (topic a) (topic b) && String.eqb (event a) (event b)
  && String.eqb (schema a) (schema b) && String.eqb (table a) (table b).

(** The effect of [useEffect] and the cleanup it returns. *)
Definition useEffect_subscribe : M unit :=
  emit (Subscribe changesChannel) ;;
  setChannels (fun chs => chs ++ [changesChannel])%list.

Definition useEffect_cleanup : M unit :=
  emit (RemoveChannel changesChannel) ;;
  setChannels (filter (fun ch => negb (channel_eqb ch changesChannel))).

(** A row-level change as the backend announces it. *)
Inductive ChangeType : Type := INSERT | UPDATE | DELETE.

Record ChangePayload : Type := mkPayload {
  eventType : ChangeType;
  payload_schema : string;
  payload_table : string;
  new_row : option Panchayath;
  old_row : option Panchayath
}.

Definition eventName (t : ChangeType) : string :=
  match t with
  | INSERT => "INSERT"
  | UPDATE => "UPDATE"
  | DELETE => "DELETE"
  end.

(** A binding receives the changes of its table whose type its [event]
    names; ["*"] names all three. *)
Definition listens (ch : RealtimeChannel) (p : ChangePayload) : bool :=
  (String.eqb (event ch) "*" || String.eqb (event ch) (eventName (eventType p)))
  && String.eqb (schema ch) (payload_schema p)
  && String.eqb (table ch) (payload_table p).

(** The callback bound on the channel; it takes no argument. *)
Definition onPostgresChanges (payload : ChangePayload) : M unit :=
  invalidateQueries listKey.

(** A notification runs the callback of every registered channel that
    listens to it. *)
Definition notify (payload : ChangePayload) : M unit :=
  c <- get ;;
  for_each (filter (fun ch => listens ch payload) (channels c))
           (fun _ => onPostgresChanges payload).

(** *** The mutations

    [mutate] runs [mutationFn], which sends one request; the mutation
    settles when the backend answers, with [onError] if the answer carries an
    error ([if (error) throw error]) and with [onSuccess] otherwise.  A
    mutation is not retried. *)

(** [now] is what [new Date().toISOString()] returns at the call. *)
Definition savePanchayathMutation_mutationFn
  (panchayathData : JSObject string) (now : string) : M unit :=
  c <- get ;;
  match editingPanchayath c with
  | Some editing =>
      emit (Backend
              (Update "panchayaths"
                 (set_own (spread panchayathData) "updated_at" now)
                 (Filter_eq "id" (id editing))))
  | None =>
      emit (Backend (Insert "panchayaths" [panchayathData]))
  end.

Definition savePanchayathMutation_onSuccess : M unit :=
  c <- get ;;
  invalidateQueries listKey ;;
  setIsDialogOpen false ;;
  setEditingPanchayath None ;;
  setFormData (fun _ => form "" "") ;;
  toast
    {| title := match editingPanchayath c with
                | Some _ => "Panchayath Updated"
                | None => "Panchayath Created"
                end;
       description :=
         "Panchayath has been "
         ++ match editingPanchayath c with
            | Some _ => "updated"
            | None => "created"
            end
         ++ " successfully.";
       destructive := false |}.

Definition savePanchayathMutation_onError (error : Thrown) : M unit :=
  toast
    {| title := "Operation Failed";
       description := "Failed to save panchayath. Please try again.";
       destructive := true |}.

Definition savePanchayathMutation_settled (error : option PostgrestError) : M unit :=
  match error with
  | Some e => savePanchayathMutation_onError (BackendError (message e))
  | None => savePanchayathMutation_onSuccess
  end.

Definition deletePanchayathMutation_mutationFn (id : string) : M unit :=
  emit (Backend (Delete "panchayaths" (Filter_eq "id" id))).

Definition deletePanchayathMutation_onSuccess : M unit :=
  invalidateQueries listKey ;;
  toast
    {| title := "Panchayath Deleted";
       description := "Panchayath has been deleted successfully.";
       destructive := false |}.

Definition deletePanchayathMutation_onError (error : Thrown) : M unit :=
  toast
    {| title := "Delete Failed";
       description := "Failed to delete panchayath. It may be in use by registrations.";
       destructive := true |}.

Definition deletePanchayathMutation_settled (error : option PostgrestError) : M unit :=
  match error with
  | Some e => deletePanchayathMutation_onError (BackendError (message e))
  | None => deletePanchayathMutation_onSuccess
  end.

(** *** The handlers *)

Definition handleEdit (panchayath : Panchayath) : M unit :=
  setEditingPanchayath (Some panchayath) ;;
  setFormData (fun _ => form (name panchayath) (district panchayath)) ;;
  setIsDialogOpen true.

(** [confirmed] is the answer [window.confirm] returns if it is asked. *)
Definition handleDelete (permissions : Permissions) (id : string)
  (confirmed : bool) : M unit :=
  if canDelete permissions then
    emit (Confirm "Are you sure you want to delete this panchayath?") ;;
    if confirmed then deletePanchayathMutation_mutationFn id else skip
  else skip.

Definition handleSubmit (permissions : Permissions) (now : string) : M unit :=
  emit PreventDefault ;;
  if canWrite permissions then
    c <- get ;;
    savePanchayathMutation_mutationFn (formData c) now
  else skip.

Definition resetForm : M unit :=
  setEditingPanchayath None ;;
  setFormData (fun _ => form "" "").

(** The [onChange] of the two inputs:
    [setFormData(prev => ({ ...prev, name: e.target.value }))]. *)
Definition onChange_name (value : string) : M unit :=
  setFormData (fun prev => set_own (spread prev) "name" value).

Definition onChange_district (value : string) : M unit :=
  setFormData (fun prev => set_own (spread prev) "district" value).

(** *** Rendering *)

(** [panchayaths?.reduce(...) || {}], and the callback of the reduction:
    [if (!acc[d]) acc[d] = []; acc[d].push(panchayath); return acc].  An
    array, like anything found on [Object.prototype], is truthy; what is
    found on [Object.prototype] has no [push]. *)
Definition group (acc : JSObject (list Panchayath)) (panchayath : Panchayath)
  : Completion (JSObject (list Panchayath)) :=
  let acc1 :=
    match Get acc (district panchayath) with
    | Undefined => set_own acc (district panchayath) []
    | _ => acc
    end in
  match Get acc1 (district panchayath) with
  | Own rows => Normal (set_own acc1 (district panchayath) (rows ++ [panchayath])%list)
  | _ => Throw (TypeError "acc[panchayath.district].push is not a function")
  end.

Definition panchayathsByDistrict (panchayaths : option (list Panchayath))
  : Completion (JSObject (list Panchayath)) :=
  match panchayaths with
  | Some rows => reduce group rows empty_object
  | None => Normal empty_object
  end.

(** The grouping in closed form, used to state what the reduction
    computes: the keys are the districts in the order in which they are first
    seen, and the value under a key is the sub-list of the rows of that
    district. *)
Definition hasDistrict (k : string) (panchayath : Panchayath) : bool :=
  String.eqb (district panchayath) k.

Definition inheritedName (panchayath : Panchayath) : bool :=
  includes Object_prototype_names (district panchayath).

Definition groups_of (ks : list string) (rows : list Panchayath)
  : JSObject (list Panchayath) :=
  map (fun k => (k, filter (hasDistrict k) rows)) ks.

Fixpoint first_seen (ks : list string) (rows : list Panchayath) : list string :=
  match rows with
  | [] => ks
  | panchayath :: rest =>
      first_seen
        (if includes ks (district panchayath) then ks
         else ks ++ [district panchayath])%list
        rest
  end.

(** The text of a date cell, [new Date(value).toLocaleDateString(locales)]:
    the day of that instant in the time zone of the browser, written the way
    of the locale. *)
Inductive DateText : Type :=
| toLocaleDateString (value locales : string).

(** A table row and a district block of the page (styling is left out). *)
Record Row : Type := mkRow {
  rowKey : string;
  nameCell : string;
  createdCell : DateText;
  updatedCell : DateText;
  editButton : bool;
  deleteButton : bool
}.

Record Block : Type := mkBlock {
  heading : string;
  count : nat;
  rows : list Row
}.

Record View : Type := mkView {
  addButton : bool;
  blocks : list Block;
  spinner : bool;
  emptyState : option string
}.

Definition renderRow (permissions : Permissions) (panchayath : Panchayath) : Row :=
  {| rowKey := id panchayath;
     nameCell := name panchayath;
     createdCell := toLocaleDateString (created_at panchayath) "en-IN";
     updatedCell := toLocaleDateString (updated_at panchayath) "en-IN";
     editButton := canWrite permissions;
     deleteButton := canDelete permissions |}.

Definition renderBlock (permissions : Permissions)
  (byDistrict : JSObject (list Panchayath)) (district : string) : Completion Block :=
  match Get byDistrict district with
  | Own members =>
      Normal {| heading := district;
                count := List.length members;
                rows := map (renderRow permissions) members |}
  | _ => Throw (TypeError "panchayathsByDistrict[district].map is not a function")
  end.

Definition render (permissions : Permissions) (c : Client) : Completion View :=
  match panchayathsByDistrict (panchayaths c) with
  | Throw e => Throw e
  | Normal byDistrict =>
      match map_array (renderBlock permissions byDistrict) (Object_keys byDistrict) with
      | Throw e => Throw e
      | Normal bs =>
          Normal
            {| addButton := canWrite permissions;
               blocks := bs;
               spinner := isLoading c;
               emptyState :=
                 if negb (isLoading c)
                    && match panchayaths c with
                       | Some (_ :: _) => false
                       | _ => true
                       end
                 then Some "No panchayaths found. Create your first panchayath to get started."
                 else None |}
      end
  end.

(** *** The component as a transition system *)

Inductive Event : Type :=
| Mounted
| Unmounted
| AddClicked
| EditClicked (panchayath : Panchayath)
| DeleteClicked (id : string) (confirmed : bool)
| NameTyped (value : string)
| DistrictTyped (value : string)
| FormSubmitted (now : string)
| DialogOpenChanged (open : bool)
| SaveSettled (error : option PostgrestError)
| DeleteSettled (error : option PostgrestError)
| FetchSettled (r : Response)
| ChangeNotified (payload : ChangePayload).

Definition step (permissions : Permissions) (ev : Event) : M unit :=
  match ev with
  | Mounted => useQuery_mount ;; useEffect_subscribe
  | Unmounted => useEffect_cleanup ;; useQuery_unmount
  | AddClicked => resetForm ;; setIsDialogOpen true
  | EditClicked panchayath => handleEdit panchayath
  | DeleteClicked id confirmed => handleDelete permissions id confirmed
  | NameTyped value => onChange_name value
  | DistrictTyped value => onChange_district value
  | FormSubmitted now => handleSubmit permissions now
  | DialogOpenChanged open => setIsDialogOpen open
  | SaveSettled error => savePanchayathMutation_settled error
  | DeleteSettled error => deletePanchayathMutation_settled error
  | FetchSettled r => fetchSettled r
  | ChangeNotified payload => notify payload
  end.

(** The state of a freshly created component over a shared cache. *)
Definition initial (cache : QueryCache) : Client :=
  {| isDialogOpen := false;
     editingPanchayath := None;
     formData := form "" "";
     queryCache := cache;
     channels := [] |}.

Inductive reachable (permissions : Permissions) : Client -> Prop :=
| reachable_initial : forall cache, reachable permissions (initial cache)
| reachable_step : forall c ev,
    reachable permissions c ->
    reachable permissions (state_after (step permissions ev) c).

(** Running a list of events from a state. *)
Fixpoint run (permissions : Permissions) (evs : list Event) (c : Client)
  : Client * list Effect :=
  match evs with
  | [] => (c, [])
  | ev :: rest =>
      let '(_, c1, t1) := step permissions ev c in
      let '(c2, t2) := run permissions rest c1 in
      (c2, t1 ++ t2)%list
  end.

(** *** The form dialog *)

(** The dialog, rendered only with write permission.  An input shows
    [formData.name] or [formData.district]; [None] stands for [undefined]. *)
Record DialogView : Type := mkDialogView {
  open : bool;
  dialogTitle : string;
  nameInput : option string;
  districtInput : option string;
  submitLabel : string
}.

Definition read (o : JSObject string) (k : string) : option string :=
  match Get o k with
  | Own v => Some v
  | _ => None
  end.

Definition renderDialog (permissions : Permissions) (c : Client) : option DialogView :=
  if canWrite permissions then
    Some {| open := isDialogOpen c;
            dialogTitle := match editingPanchayath c with
                           | Some _ => "Edit Panchayath"
                           | None => "Add New Panchayath"
                           end;
            nameInput := read (formData c) "name";
            districtInput := read (formData c) "district";
            submitLabel := match editingPanchayath c with
                           | Some _ => "Update"
                           | None => "Create"
                           end ++ " Panchayath" |}
  else None.

(** What the user types into the two inputs. *)
Inductive Keystroke : Type :=
| TypeName (value : string)
| TypeDistrict (value : string).

Definition keystroke_event (k : Keystroke) : Event :=
  match k with
  | TypeName value => NameTyped value
  | TypeDistrict value => DistrictTyped value
  end.

(** The name and district a form shows after a keystroke. *)
Definition type_into (shown : string * string) (k : Keystroke) : string * string :=
  match k with
  | TypeName value => (value, snd shown)
  | TypeDistrict value => (fst shown, value)
  end.

End PanchayathsManagement.

(** ** The category form of the admin screen *)

Module CategoryForm.

Import JS.
Open Scope string_scope.

(** A field of the form state holds the text of an input or the state of
    the switch. *)
Inductive FieldValue : Type :=
| Text (value : string)
| Checked (checked : bool).

Definition CategoryData : Type := JSObject FieldValue.

Section Form.

(** The row type, declared in [./types]. *)
Variable Category : Type.

(** The props the form reads: [permissions.canWrite] is all it uses of
    [permissions]. *)
Record Props : Type := mkProps {
  isOpen : bool;
  editingCategory : option Category;
  formData : CategoryData;
  canWrite : bool
}.

(** The updaters the inputs hand to [setFormData]:
    [prev => ({ ...prev, field: value })]. *)
Definition change (field : string) (value : FieldValue) (prev : CategoryData)
  : CategoryData :=
  set_own (spread prev) field value.

Definition onChange_name (value : string) := change "name" (Text value).
Definition onChange_actual_fee (value : string) := change "actual_fee" (Text value).
Definition onChange_offer_fee (value : string) := change "offer_fee" (Text value).
Definition onChange_popup_image_url (value : string) :=
  change "popup_image_url" (Text value).
Definition onChange_qr_image_url (value : string) :=
  change "qr_image_url" (Text value).
Definition onCheckedChange_is_active (checked : bool) :=
  change "is_active" (Checked checked).

Record FormView : Type := mkFormView {
  open : bool;
  title : string;
  nameInput : option FieldValue;
  actualFeeInput : option FieldValue;
  offerFeeInput : option FieldValue;
  popupImageInput : option FieldValue;
  qrImageInput : option FieldValue;
  activeSwitch : option FieldValue;
  submitLabel : string
}.

Definition read (o : CategoryData) (k : string) : option FieldValue :=
  match Get o k with
  | Own v => Some v
  | _ => None
  end.

(** [if (!permissions.canWrite) return null]. *)
Definition render (props : Props) : option FormView :=
  if negb (canWrite props) then None
  else
    Some {| open := isOpen props;
            title := match editingCategory props with
                     | Some _ => "Edit Category"
                     | None => "Add New Category"
                     end;
            nameInput := read (formData props) "name";
            actualFeeInput := read (formData props) "actual_fee";
            offerFeeInput := read (formData props) "offer_fee";
            popupImageInput := read (formData props) "popup_image_url";
            qrImageInput := read (formData props) "qr_image_url";
            activeSwitch := read (formData props) "is_active";
            submitLabel := match editingCategory props with
                           | Some _ => "Update"
                           | None => "Create"
                           end ++ " Category" |}.

End Form.

End CategoryForm.

(** * Properties *)

Unset Implicit Arguments.

(** ** Facts about the JavaScript fragment *)

Module JSFacts.

Import JS.
Open Scope Z_scope.

(** *** [indexOf] *)

Lemma indexOf_from_range (arr : list string) (x : string) (i : Z) :
  indexOf_from arr x i = -1
  \/ (i <= indexOf_from arr x i < i + Z.of_nat (List.length arr)).
Proof.
  revert i; induction arr as [|y rest IH]; intros i; simpl; [now left|].
  destruct (String.eqb y x).
  - right; lia.
  - destruct (IH (i + 1)) as [E|E]; [now left | right; lia].
Qed.

Lemma indexOf_from_absent (arr : list string) (x : string) (i : Z) :
  0 <= i -> (indexOf_from arr x i = -1 <-> ~ In x arr).
Proof.
  revert i; induction arr as [|y rest IH]; intros i Hi; simpl.
  - tauto.
  - destruct (String.eqb_spec y x) as [->|Hne].
    + split; [lia | intros H; exfalso; apply H; now left].
    + rewrite IH by lia. split; [intros H [E|E]; auto | tauto].
Qed.

Lemma indexOf_absent (arr : list string) (x : string) :
  indexOf arr x = -1 <-> ~ In x arr.
Proof. apply indexOf_from_absent; lia. Qed.

Lemma indexOf_from_nth (arr : list string) (x : string) (i : Z) (p : nat) :
  NoDup arr -> nth_error arr p = Some x ->
  indexOf_from arr x i = i + Z.of_nat p.
Proof.
  revert i p; induction arr as [|y rest IH]; intros i p Hnd Hp.
  - destruct p; discriminate.
  - inversion Hnd as [|? ? Hnot Hnd']; subst. simpl.
    destruct p as [|p]; simpl in Hp.
    + injection Hp as ->. rewrite String.eqb_refl. lia.
    + destruct (String.eqb_spec y x) as [->|Hne].
      * exfalso; apply Hnot. eapply nth_error_In; eauto.
      * rewrite (IH (i + 1) p Hnd' Hp); lia.
Qed.

Lemma indexOf_nth (arr : list string) (x : string) (p : nat) :
  NoDup arr -> nth_error arr p = Some x -> indexOf arr x = Z.of_nat p.
Proof. intros Hnd Hp. unfold indexOf. now rewrite (@indexOf_from_nth arr x 0 p Hnd Hp). Qed.

Lemma indexOf_from_found (arr : list string) (x : string) (i : Z) :
  indexOf_from arr x i <> -1 ->
  nth_error arr (Z.to_nat (indexOf_from arr x i - i)) = Some x.
Proof.
  revert i; induction arr as [|y rest IH]; intros i; simpl; [congruence|].
  destruct (String.eqb_spec y x) as [->|Hne]; intros Hfound.
  - now rewrite Z.sub_diag.
  - destruct (indexOf_from_range rest x (i + 1)) as [E|Hrange]; [congruence|].
    replace (indexOf_from rest x (i + 1) - i)
      with (Z.succ (indexOf_from rest x (i + 1) - (i + 1))) by lia.
    rewrite Z2Nat.inj_succ by lia. simpl. now apply IH.
Qed.

Lemma includes_In (arr : list string) (x : string) :
  includes arr x = true <-> In x arr.
Proof.
  unfold includes. rewrite existsb_exists. split.
  - intros [y [Hy E]]. apply String.eqb_eq in E. now subst.
  - intros H. exists x. split; [assumption | apply String.eqb_refl].
Qed.

(** *** [Array.prototype.sort] with a comparator that subtracts ranks *)

Section SortByRank.

Variable A : Type.
Variable rank : A -> Z.
Variable comparefn : A -> A -> Z.
Hypothesis comparefn_subtracts : forall a b, comparefn a b = rank a - rank b.

Local Abbreviation by_rank := (fun a b : A => rank a <= rank b).

Lemma sort_insert_perm (x : A) (l : list A) :
  Permutation (x :: l) (sort_insert comparefn x l).
Proof.
  induction l as [|y rest IH]; simpl; [reflexivity|].
  destruct (comparefn x y <=? 0); [reflexivity|].
  rewrite perm_swap. now constructor.
Qed.

Lemma Array_sort_perm (l : list A) : Permutation l (Array_sort comparefn l).
Proof.
  induction l as [|x rest IH]; simpl; [constructor|].
  rewrite <- sort_insert_perm. now constructor.
Qed.

Lemma sort_insert_sorted (x : A) (l : list A) :
  StronglySorted by_rank l -> StronglySorted by_rank (sort_insert comparefn x l).
Proof.
  induction 1 as [|y rest Hs IH Hall]; simpl.
  - constructor; constructor.
  - rewrite comparefn_subtracts. destruct (Z.leb_spec (rank x - rank y) 0) as [Hle|Hgt].
    + constructor; [now constructor|].
      constructor; [lia|].
      eapply Forall_impl; [|exact Hall]. simpl; intros; lia.
    + constructor; [assumption|].
      rewrite <- sort_insert_perm. constructor; [lia | assumption].
Qed.

Lemma Array_sort_sorted (l : list A) : StronglySorted by_rank (Array_sort comparefn l).
Proof.
  induction l as [|x rest IH]; simpl; [constructor | now apply sort_insert_sorted].
Qed.

(** Stability: an element is never moved past one of its own rank, so the
    elements of any one rank keep their order. *)
Lemma sort_insert_stable (r : Z) (x : A) (l : list A) :
  filter (fun a => rank a =? r) (sort_insert comparefn x l)
  = filter (fun a => rank a =? r) (x :: l).
Proof.
  induction l as [|y rest IH]; simpl; [reflexivity|].
  rewrite comparefn_subtracts. destruct (Z.leb_spec (rank x - rank y) 0) as [Hle|Hgt].
  - reflexivity.
  - simpl. rewrite IH. simpl.
    destruct (Z.eqb_spec (rank x) r), (Z.eqb_spec (rank y) r); try reflexivity; lia.
Qed.

Lemma Array_sort_stable (r : Z) (l : list A) :
  filter (fun a => rank a =? r) (Array_sort comparefn l)
  = filter (fun a => rank a =? r) l.
Proof.
  induction l as [|x rest IH]; simpl; [reflexivity|].
  rewrite sort_insert_stable. simpl. now rewrite IH.
Qed.

(** The result does not depend on the sorting algorithm: a list ordered by
    rank is determined by its elements of each rank, taken in order. *)
Lemma stable_sorted_unique (l1 : list A) :
  forall l2,
    StronglySorted by_rank l1 -> StronglySorted by_rank l2 ->
    (forall r, filter (fun a => rank a =? r) l1 = filter (fun a => rank a =? r) l2) ->
    l1 = l2.
Proof.
  assert (Hempty : forall x l r,
             StronglySorted by_rank (x :: l) -> r < rank x ->
             filter (fun a => rank a =? r) (x :: l) = []).
  { intros x l r Hs Hr. apply StronglySorted_inv in Hs. destruct Hs as [_ Hx].
    rewrite Forall_forall in Hx.
    assert (Hall : forall a, In a (x :: l) -> (rank a =? r) = false).
    { intros a [<-|Ha]; apply Z.eqb_neq; [lia|]. specialize (Hx a Ha). simpl in Hx. lia. }
    induction (x :: l) as [|a rest IH]; simpl; [reflexivity|].
    rewrite (Hall a (or_introl eq_refl)). apply IH. intros; apply Hall; now right. }
  induction l1 as [|x t1 IH]; intros [|y t2] H1 H2 Hsame.
  - reflexivity.
  - specialize (Hsame (rank y)). simpl in Hsame. rewrite Z.eqb_refl in Hsame. discriminate.
  - specialize (Hsame (rank x)). simpl in Hsame. rewrite Z.eqb_refl in Hsame. discriminate.
  - assert (Hrank : rank x = rank y).
    { destruct (Z.lt_trichotomy (rank x) (rank y)) as [Hlt|[E|Hlt]]; [|exact E|].
      - pose proof (Hsame (rank x)) as H. rewrite (Hempty y t2 _ H2 Hlt) in H.
        simpl in H. rewrite Z.eqb_refl in H. discriminate.
      - pose proof (Hsame (rank y)) as H. rewrite (Hempty x t1 _ H1 Hlt) in H.
        simpl in H. rewrite Z.eqb_refl in H. discriminate. }
    pose proof (Hsame (rank x)) as Hx. simpl in Hx.
    rewrite <- Hrank, Z.eqb_refl in Hx. injection Hx as -> Hx.
    f_equal. apply IH.
    + now apply StronglySorted_inv in H1.
    + now apply StronglySorted_inv in H2.
    + intros r. specialize (Hsame r). simpl in Hsame.
      destruct (rank y =? r); [now injection Hsame | exact Hsame].
Qed.

Lemma Array_sort_characterised (l out : list A) :
  StronglySorted by_rank out ->
  (forall r, filter (fun a => rank a =? r) out = filter (fun a => rank a =? r) l) ->
  out = Array_sort comparefn l.
Proof.
  intros Hs Hsame. apply stable_sorted_unique; [assumption | apply Array_sort_sorted|].
  intros r. now rewrite Array_sort_stable.
Qed.

(** Hence the sorted array in closed form: the elements of the least rank
    in their original order, then those of the next rank, and so on. *)
Lemma filter_rank_twice (r r' : Z) (l : list A) :
  filter (fun a => rank a =? r) (filter (fun a => rank a =? r') l)
  = if r' =? r then filter (fun a => rank a =? r) l else [].
Proof.
  induction l as [|a l IH]; simpl; [now destruct (r' =? r)|].
  destruct (Z.eqb_spec (rank a) r') as [E|Hne]; simpl.
  - rewrite IH. subst r'. now destruct (rank a =? r).
  - rewrite IH. destruct (Z.eqb_spec r' r) as [E|_]; [|reflexivity].
    subst r'. destruct (Z.eqb_spec (rank a) r); [contradiction | reflexivity].
Qed.

Lemma rank_classes_filter (rs : list Z) (l : list A) (r : Z) :
  StronglySorted Z.lt rs ->
  filter (fun a => rank a =? r)
    (flat_map (fun r' => filter (fun a => rank a =? r') l) rs)
  = if existsb (Z.eqb r) rs then filter (fun a => rank a =? r) l else [].
Proof.
  induction 1 as [|r0 rs Hs IH Hr0]; simpl; [reflexivity|].
  rewrite filter_app, filter_rank_twice, IH. rewrite (Z.eqb_sym r r0).
  destruct (Z.eqb_spec r0 r) as [E|_]; simpl; [|reflexivity].
  subst r0. destruct (existsb (Z.eqb r) rs) eqn:Hex; [|apply app_nil_r].
  apply existsb_exists in Hex. destruct Hex as [x [Hx E]].
  apply Z.eqb_eq in E. subst x. rewrite Forall_forall in Hr0.
  specialize (Hr0 r Hx). lia.
Qed.

Lemma rank_classes_sorted (rs : list Z) (l : list A) :
  StronglySorted Z.lt rs ->
  StronglySorted by_rank
    (flat_map (fun r' => filter (fun a => rank a =? r') l) rs).
Proof.
  induction 1 as [|r0 rs Hs IH Hr0]; simpl; [constructor|].
  assert (Hclass : forall a, In a (filter (fun a => rank a =? r0) l) -> rank a = r0).
  { intros a Ha. apply filter_In in Ha. now apply Z.eqb_eq. }
  assert (Hrest : forall b,
             In b (flat_map (fun r' => filter (fun a => rank a =? r') l) rs) ->
             r0 < rank b).
  { intros b Hb. apply in_flat_map in Hb. destruct Hb as [r' [Hr' Hb]].
    apply filter_In in Hb. destruct Hb as [_ Hb]. apply Z.eqb_eq in Hb.
    rewrite Forall_forall in Hr0. specialize (Hr0 r' Hr'). lia. }
  induction (filter (fun a => rank a =? r0) l) as [|a class IHclass]; simpl.
  - exact IH.
  - constructor.
    + apply IHclass. intros; apply Hclass; now right.
    + apply Forall_forall. intros b Hb. apply in_app_or in Hb.
      rewrite (Hclass a (or_introl eq_refl)). destruct Hb as [Hb|Hb].
      * rewrite (Hclass b (or_intror Hb)). lia.
      * specialize (Hrest b Hb). lia.
Qed.

Lemma Array_sort_rank_classes (rs : list Z) (l : list A) :
  StronglySorted Z.lt rs ->
  (forall a, In a l -> In (rank a) rs) ->
  Array_sort comparefn l
  = flat_map (fun r => filter (fun a => rank a =? r) l) rs.
Proof.
  intros Hrs Hall. symmetry. apply Array_sort_characterised.
  - now apply rank_classes_sorted.
  - intros r. rewrite (rank_classes_filter _ _ _ Hrs).
    destruct (existsb (Z.eqb r) rs) eqn:Hex; [reflexivity|].
    symmetry. induction l as [|a l IH]; simpl; [reflexivity|].
    destruct (Z.eqb_spec (rank a) r) as [E|_].
    + exfalso. assert (Hin : existsb (Z.eqb r) rs = true).
      { apply existsb_exists. exists (rank a).
        split; [apply Hall; now left | apply Z.eqb_eq; congruence]. }
      congruence.
    + apply IH. intros; apply Hall; now right.
Qed.

Lemma sorted_positions (l : list A) (i j : nat) (a b : A) :
  StronglySorted by_rank l ->
  nth_error l i = Some a -> nth_error l j = Some b -> (i < j)%nat ->
  rank a <= rank b.
Proof.
  intros Hs; revert i j; induction Hs as [|y rest Hs IH Hall]; intros i j Hi Hj Hij.
  - destruct i; discriminate.
  - destruct j as [|j]; [lia|]. simpl in Hj.
    destruct i as [|i]; simpl in Hi.
    + injection Hi as ->. rewrite Forall_forall in Hall.
      apply Hall. eapply nth_error_In; eauto.
    + apply (IH i j); auto; lia.
Qed.

End SortByRank.

(** *** [Object.keys] *)

Lemma insert_index_perm (k : N * string) (l : list (N * string)) :
  Permutation (insert_index k l) (k :: l).
Proof.
  induction l as [|k' rest IH]; simpl; [reflexivity|].
  destruct (fst k <=? fst k')%N; [reflexivity|].
  rewrite IH. apply perm_swap.
Qed.

Lemma index_keys_perm (ks : list string) :
  Permutation (map snd (index_keys ks)) (filter isArrayIndex ks).
Proof.
  induction ks as [|k rest IH]; simpl; [constructor|].
  unfold isArrayIndex at 1. destruct (arrayIndex k) as [n|]; [|exact IH].
  rewrite insert_index_perm. simpl. now constructor.
Qed.

Lemma filter_split_perm {A : Type} (f : A -> bool) (l : list A) :
  Permutation (filter f l ++ filter (fun x => negb (f x)) l) l.
Proof.
  induction l as [|x rest IH]; simpl; [constructor|].
  destruct (f x); simpl.
  - now constructor.
  - rewrite <- Permutation_middle. now constructor.
Qed.

(** [Object.keys] lists every own key once. *)
Lemma Object_keys_perm {V : Type} (o : JSObject V) :
  Permutation (Object_keys o) (map fst o).
Proof.
  unfold Object_keys. rewrite index_keys_perm. apply filter_split_perm.
Qed.

(** Without array-index keys, [Object.keys] is the order of creation. *)
Lemma Object_keys_creation_order {V : Type} (o : JSObject V) :
  forallb (fun k => negb (isArrayIndex k)) (map fst o) = true ->
  Object_keys o = map fst o.
Proof.
  intros H. unfold Object_keys.
  rewrite (forallb_filter_id _ _ H).
  assert (E : index_keys (map fst o) = []).
  { induction (map fst o) as [|k rest IH]; simpl in *; [reflexivity|].
    apply andb_true_iff in H. destruct H as [Hk Hrest].
    unfold isArrayIndex in Hk. destruct (arrayIndex k); [discriminate|].
    now apply IH. }
  now rewrite E.
Qed.

Lemma flat_map_agree {A B : Type} (f g : A -> list B) (l : list A) :
  (forall x, In x l -> f x = g x) -> flat_map f l = flat_map g l.
Proof.
  induction l as [|x rest IH]; intros H; simpl; [reflexivity|].
  rewrite (H x (or_introl eq_refl)). f_equal. apply IH.
  intros y Hy. apply H. now right.
Qed.

Lemma map_array_normal {A B : Type} (f : A -> Completion B) (g : A -> B) (l : list A) :
  (forall x, In x l -> f x = Normal (g x)) -> map_array f l = Normal (map g l).
Proof.
  induction l as [|x rest IH]; intros H; simpl; [reflexivity|].
  rewrite (H x (or_introl eq_refl)). rewrite IH; [reflexivity|].
  intros y Hy. apply H. now right.
Qed.

End JSFacts.

(** ** The public category page *)

Module CategoriesPageFacts.

Import JS JSFacts CategoriesPage FeeInvariant.
Open Scope string_scope.
Open Scope Z_scope.

Lemma comparefn_rank (a b : Category) : comparefn a b = rank a - rank b.
Proof. reflexivity. Qed.

Lemma categoryOrder_NoDup : NoDup categoryOrder.
Proof.
  unfold categoryOrder.
  repeat (constructor; [simpl; intuition discriminate|]). constructor.
Qed.

Lemma rank_listed (c : Category) (p : nat) :
  nth_error categoryOrder p = Some (name c) -> rank c = Z.of_nat p.
Proof.
  intros Hp. unfold rank.
  rewrite (@indexOf_nth _ _ p categoryOrder_NoDup Hp).
  destruct (Z.eqb_spec (Z.of_nat p) (-1)); [lia | reflexivity].
Qed.

Lemma rank_unlisted (c : Category) :
  ~ In (name c) categoryOrder -> rank c = 999.
Proof.
  intros H. apply indexOf_absent in H. unfold rank. now rewrite H.
Qed.

Lemma rank_999 (c : Category) :
  (rank c =? 999) = negb (includes categoryOrder (name c)).
Proof.
  unfold rank.
  destruct (includes categoryOrder (name c)) eqn:E.
  - apply includes_In in E.
    destruct (indexOf_from_range categoryOrder (name c) 0) as [H|H].
    + apply indexOf_absent in H. contradiction.
    + fold (indexOf categoryOrder (name c)) in H. simpl in H.
      destruct (Z.eqb_spec (indexOf categoryOrder (name c)) (-1)); [lia|].
      simpl. apply Z.eqb_neq. lia.
  - assert (H : ~ In (name c) categoryOrder).
    { intros H. apply includes_In in H. congruence. }
    apply indexOf_absent in H. now rewrite H.
Qed.

Lemma rank_named (c : Category) (p : nat) (n : string) :
  nth_error categoryOrder p = Some n ->
  (rank c =? Z.of_nat p) = String.eqb (name c) n.
Proof.
  intros Hp. destruct (String.eqb_spec (name c) n) as [E|Hne].
  - subst n. rewrite (rank_listed c p Hp). apply Z.eqb_refl.
  - apply Z.eqb_neq. intros Hrank. apply Hne.
    assert (Hlt : (p < List.length categoryOrder)%nat).
    { apply nth_error_Some. congruence. }
    simpl in Hlt. unfold rank in Hrank.
    destruct (Z.eqb_spec (indexOf categoryOrder (name c)) (-1)) as [_|Hfound]; [lia|].
    pose proof (indexOf_from_found categoryOrder (name c) 0 Hfound) as Hnth.
    fold (indexOf categoryOrder (name c)) in Hnth.
    rewrite Hrank, Z.sub_0_r, Nat2Z.id in Hnth. congruence.
Qed.

Lemma rank_values (c : Category) : In (rank c) [0; 1; 2; 3; 4; 5; 6; 999].
Proof.
  unfold rank.
  destruct (indexOf_from_range categoryOrder (name c) 0) as [E|Hrange];
    fold (indexOf categoryOrder (name c)) in *.
  - rewrite E. simpl. tauto.
  - simpl in Hrange.
    destruct (Z.eqb_spec (indexOf categoryOrder (name c)) (-1)); [lia|].
    assert (H : indexOf categoryOrder (name c) = 0
                \/ indexOf categoryOrder (name c) = 1
                \/ indexOf categoryOrder (name c) = 2
                \/ indexOf categoryOrder (name c) = 3
                \/ indexOf categoryOrder (name c) = 4
                \/ indexOf categoryOrder (name c) = 5
                \/ indexOf categoryOrder (name c) = 6) by lia.
    simpl. intuition auto.
Qed.

(** The listing in closed form: for each name of the priority list in
    turn, the fetched categories of that name; then the fetched categories
    whose name is not in the list; each time in fetched order. *)
Lemma categories_shown (fetched : list Category) :
  queryFn {| data := Some fetched; error := None |}
  = Normal
      (flat_map (fun n => filter (fun c => String.eqb (name c) n) fetched)
                categoryOrder
       ++ filter (fun c => negb (includes categoryOrder (name c))) fetched)%list.
Proof.
  change (queryFn {| data := Some fetched; error := None |})
    with (Normal (Array_sort comparefn fetched)).
  f_equal.
  rewrite (Array_sort_rank_classes Category rank comparefn comparefn_rank
             [0; 1; 2; 3; 4; 5; 6; 999]).
  - assert (Hclass : forall p n,
               nth_error categoryOrder p = Some n ->
               filter (fun c => rank c =? Z.of_nat p) fetched
               = filter (fun c => String.eqb (name c) n) fetched).
    { intros p n Hp. apply filter_ext. intros c. now apply rank_named. }
    cbn [flat_map categoryOrder].
    rewrite <- (Hclass 0%nat _ eq_refl), <- (Hclass 1%nat _ eq_refl),
      <- (Hclass 2%nat _ eq_refl), <- (Hclass 3%nat _ eq_refl),
      <- (Hclass 4%nat _ eq_refl), <- (Hclass 5%nat _ eq_refl),
      <- (Hclass 6%nat _ eq_refl).
    rewrite (filter_ext (fun c => negb (includes categoryOrder (name c)))
               (fun c => rank c =? 999))
      by (intros; now rewrite rank_999).
    cbn [Z.of_nat Pos.of_succ_nat Pos.succ].
    rewrite !app_nil_r, <- !app_assoc. reflexivity.
  - repeat (constructor; [|repeat constructor; lia]). constructor.
  - intros c _. apply rank_values.
Qed.

(** C1. The categories the backend returned are re-sorted so that (1)
    nothing is lost or added, (2) of two categories with names in the
    priority list the one whose name comes earlier in the list is shown
    earlier, (3) a category with a listed name is shown before every
    category with an unlisted name, and (4) the categories with unlisted
    names keep the order in which they were fetched.  Altogether (5) the
    listing is: for each name of the priority list in turn the fetched
    categories of that name, then the fetched categories with unlisted
    names, always in fetched order. *)
Theorem categories_priority_order (fetched : list Category) :
  exists shown,
    queryFn {| data := Some fetched; error := None |} = Normal shown
    /\ Permutation fetched shown
    /\ (forall i j a b p q,
          nth_error shown i = Some a -> nth_error shown j = Some b ->
          nth_error categoryOrder p = Some (name a) ->
          nth_error categoryOrder q = Some (name b) ->
          (p < q)%nat -> (i < j)%nat)
    /\ (forall i j a b,
          nth_error shown i = Some a -> nth_error shown j = Some b ->
          In (name a) categoryOrder -> ~ In (name b) categoryOrder ->
          (i < j)%nat)
    /\ filter (fun c => negb (includes categoryOrder (name c))) shown
       = filter (fun c => negb (includes categoryOrder (name c))) fetched
    /\ shown
       = (flat_map (fun n => filter (fun c => String.eqb (name c) n) fetched)
                   categoryOrder
          ++ filter (fun c => negb (includes categoryOrder (name c))) fetched)%list.
Proof.
  exists (Array_sort comparefn fetched). split; [reflexivity|].
  pose proof (@Array_sort_sorted _ rank comparefn comparefn_rank fetched) as Hs.
  split; [apply Array_sort_perm|].
  split; [|split; [|split]].
  - intros i j a b p q Hi Hj Hp Hq Hpq.
    apply rank_listed in Hp. apply rank_listed in Hq.
    destruct (Nat.lt_trichotomy i j) as [Hij|[Hij|Hij]]; [assumption| |].
    + subst j. rewrite Hi in Hj. injection Hj as ->. lia.
    + pose proof (@sorted_positions _ rank _ _ _ _ _ Hs Hj Hi Hij). lia.
  - intros i j a b Hi Hj Ha Hb.
    apply rank_unlisted in Hb.
    assert (Hra : rank a < 999).
    { apply In_nth_error in Ha. destruct Ha as [p Hp].
      assert (Hlt : (p < List.length categoryOrder)%nat).
      { apply nth_error_Some. congruence. }
      rewrite (@rank_listed a p Hp). simpl in Hlt. lia. }
    destruct (Nat.lt_trichotomy i j) as [Hij|[Hij|Hij]]; [assumption| |].
    + subst j. rewrite Hi in Hj. injection Hj as ->. lia.
    + pose proof (@sorted_positions _ rank _ _ _ _ _ Hs Hj Hi Hij). lia.
  - rewrite !(filter_ext (fun c => negb (includes categoryOrder (name c)))
               (fun c => rank c =? 999))
      by (intros; now rewrite rank_999).
    apply (@Array_sort_stable _ rank comparefn comparefn_rank).
  - pose proof (categories_shown fetched) as Hshown.
    change (queryFn {| data := Some fetched; error := None |})
      with (Normal (Array_sort comparefn fetched)) in Hshown.
    now injection Hshown.
Qed.

(** *** The fee block *)

(** [Math.round] on a few values: ties go up, a small negative value rounds
    to minus zero, and the largest double below one half rounds to zero. *)
Example Math_round_examples :
  Math_round (Number_div (Number_of_Z 5) (Number_of_Z 2)) = Number_of_Z 3
  /\ Math_round (Number_div (Number_of_Z (-5)) (Number_of_Z 2)) = Number_of_Z (-2)
  /\ Math_round (Number_div (Number_of_Z (-1)) (Number_of_Z 4)) = S754_zero true
  /\ Math_round (S754_finite false 9007199254740991 (-54)) = S754_zero false
  /\ Math_round (Number_of_Z 7) = Number_of_Z 7.
Proof. repeat split; vm_compute; reflexivity. Qed.

(** The arithmetic is that of doubles: for fees of 200 and 171 the quotient
    0.145 has no exact double, the product is 14.499999999999998, and the
    card shows 14. *)
Example discount_in_double_arithmetic :
  Number_mul
    (Number_div (Number_sub (Number_of_Z 200) (Number_of_Z 171)) (Number_of_Z 200))
    (Number_of_Z 100)
  = S754_finite false 8162774324609023 (-49)
  /\ discount
       (mkCategory "c" "Farmelife" (Number_of_Z 200) (Number_of_Z 171)
          true false None None "" "")
     = Number_of_Z 14.
Proof. split; vm_compute; reflexivity. Qed.

Lemma zero_not_positive (x : Number) :
  Number_eq x (Number_of_Z 0) = true -> Number_gt x (Number_of_Z 0) = false.
Proof.
  change (Number_of_Z 0) with (S754_zero false).
  unfold Number_eq, Number_gt, SFeqb, SFltb.
  destruct x as [s| s | |s m e]; simpl; try reflexivity; try discriminate;
    destruct s; discriminate.
Qed.

Lemma render_loaded (cs : list Category) :
  render {| categories := Some cs; isLoading := false; failed := false |}
  = ListingView (map renderCard cs)
      match cs with
      | [] => Some "No categories available at the moment."
      | _ :: _ => None
      end.
Proof. destruct cs; reflexivity. Qed.

(** The fee block as the card computes it, on doubles: the expressions of
    the source, the guard included. *)
Lemma fee_block_in_doubles (category : Category) :
  (forall cs, exists note,
      render {| categories := Some cs; isLoading := false; failed := false |}
      = ListingView (map renderCard cs) note)
  /\ youSave (renderCard category)
     = Number_sub (actual_fee category) (offer_fee category)
  /\ (Number_gt (actual_fee category) (Number_of_Z 0) = true ->
      discountPercent (renderCard category)
      = Math_round
          (Number_mul
             (Number_div
                (Number_sub (actual_fee category) (offer_fee category))
                (actual_fee category))
             (Number_of_Z 100)))
  /\ (Number_eq (actual_fee category) (Number_of_Z 0) = true ->
      discountPercent (renderCard category) = Number_of_Z 0).
Proof.
  split; [intros cs; eexists; apply render_loaded|].
  split; [reflexivity|].
  split.
  - intros Hpos. simpl. unfold discount. now rewrite Hpos.
  - intros Hzero. simpl. unfold discount. now rewrite (zero_not_positive _ Hzero).
Qed.

(** *** The fee block against the specification *)











End CategoriesPageFacts.

(** ** The admin panchayath screen *)

Module PanchayathsManagementFacts.

Import JS JSFacts PanchayathsManagement.
Open Scope string_scope.

(** *** The query cache *)

Lemma key_eqb_eq (k1 k2 : QueryKey) : key_eqb k1 k2 = true <-> k1 = k2.
Proof.
  revert k2; induction k1 as [|a k1 IH]; intros [|b k2]; simpl;
    try (split; [discriminate | congruence]); [tauto|].
  rewrite andb_true_iff, String.eqb_eq, IH. split.
  - intros [-> ->]; reflexivity.
  - intros E; injection E as -> ->; auto.
Qed.

Lemma key_eqb_refl (k : QueryKey) : key_eqb k k = true.
Proof. now apply key_eqb_eq. Qed.

Lemma key_matches_refl (k : QueryKey) : key_matches k k = true.
Proof. induction k as [|a k IH]; simpl; [reflexivity|]. now rewrite String.eqb_refl. Qed.

Lemma find_query_key (cache : QueryCache) (key : QueryKey) (q : Query) :
  find_query cache key = Some q -> queryKey q = key.
Proof.
  unfold find_query. intros H. apply find_some in H. now apply key_eqb_eq.
Qed.

Lemma find_query_In (cache : QueryCache) (key : QueryKey) (q : Query) :
  find_query cache key = Some q -> In q cache.
Proof. unfold find_query. intros H. now apply find_some in H. Qed.

Lemma find_upsert (cache : QueryCache) (key : QueryKey) (f : Query -> Query) :
  (forall q, queryKey (f q) = queryKey q) ->
  find_query (upsert_query cache key (fresh_query key) f) key
  = Some (f match find_query cache key with
            | Some q => q
            | None => fresh_query key
            end).
Proof.
  intros Hf. unfold find_query. induction cache as [|q rest IH]; simpl.
  - now rewrite Hf, key_eqb_refl.
  - destruct (key_eqb (queryKey q) key) eqn:E; simpl.
    + now rewrite Hf, E.
    + now rewrite E.
Qed.

(** A fetch that starts changes neither key, data, stale mark nor
    observers of the query. *)
Lemma fetch_key (cancelRefetch : bool) (q : Query) :
  queryKey (fetch cancelRefetch q) = queryKey q.
Proof. unfold fetch. now destruct (starts_fetch cancelRefetch q). Qed.

Lemma fetch_cached (cancelRefetch : bool) (q : Query) :
  cached (fetch cancelRefetch q) = cached q.
Proof. unfold fetch. now destruct (starts_fetch cancelRefetch q). Qed.

Lemma fetch_isInvalidated (cancelRefetch : bool) (q : Query) :
  isInvalidated (fetch cancelRefetch q) = isInvalidated q.
Proof. unfold fetch. now destruct (starts_fetch cancelRefetch q). Qed.


Lemma fetch_fetching (cancelRefetch : bool) (q : Query) :
  isFetching (fetch cancelRefetch q) = true.
Proof.
  unfold fetch, starts_fetch. destruct (isFetching q) eqn:E; simpl.
  - now destruct (hasData q && cancelRefetch).
  - reflexivity.
Qed.

Lemma invalidate_key (wanted : QueryKey) (q : Query) :
  queryKey (invalidate wanted q) = queryKey q.
Proof.
  unfold invalidate. destruct (key_matches wanted (queryKey q)); [|reflexivity].
  destruct (active q); [|reflexivity]. now rewrite fetch_key.
Qed.

Lemma invalidate_cached (wanted : QueryKey) (q : Query) :
  cached (invalidate wanted q) = cached q.
Proof.
  unfold invalidate. destruct (key_matches wanted (queryKey q)); [|reflexivity].
  destruct (active q); [|reflexivity]. now rewrite fetch_cached.
Qed.


Lemma invalidate_marks (key : QueryKey) (q : Query) :
  queryKey q = key -> isInvalidated (invalidate key q) = true.
Proof.
  intros <-. unfold invalidate. rewrite key_matches_refl.
  destruct (active q); [|reflexivity].
  now rewrite fetch_isInvalidated.
Qed.

(** After an invalidation an observed query is being fetched. *)
Lemma invalidate_fetching (key : QueryKey) (q : Query) :
  queryKey q = key -> active q = true -> isFetching (invalidate key q) = true.
Proof.
  intros <- Ha. unfold invalidate. rewrite key_matches_refl, Ha. apply fetch_fetching.
Qed.

Lemma find_invalidated (wanted key : QueryKey) (cache : QueryCache) :
  find_query (map (invalidate wanted) cache) key
  = option_map (invalidate wanted) (find_query cache key).
Proof.
  unfold find_query. induction cache as [|q rest IH]; simpl; [reflexivity|].
  rewrite invalidate_key. now destruct (key_eqb (queryKey q) key).
Qed.

Lemma invalidated_data (wanted : QueryKey) (cache : QueryCache) :
  map cached (map (invalidate wanted) cache) = map cached cache.
Proof.
  rewrite map_map. apply map_ext. intros q. apply invalidate_cached.
Qed.

Lemma invalidated_keys (wanted : QueryKey) (cache : QueryCache) :
  map queryKey (map (invalidate wanted) cache) = map queryKey cache.
Proof.
  rewrite map_map. apply map_ext. intros q. apply invalidate_key.
Qed.

(** An invalidation starts a fetch of the list query when the query is
    observed and either idle or holding data. *)
Lemma refetched_starts (cache : QueryCache) (q : Query) :
  find_query cache listKey = Some q -> active q = true ->
  starts_fetch true q = true ->
  In (Fetch listKey) (refetched listKey cache).
Proof.
  intros Hq Ha Hs. unfold refetched.
  apply in_map_iff. exists q. split.
  - now rewrite (find_query_key _ _ _ Hq).
  - apply filter_In. split; [now apply find_query_In with (key := listKey)|].
    rewrite (find_query_key _ _ _ Hq), key_matches_refl. now rewrite Ha, Hs.
Qed.



Lemma settle_key (r : Response) (q : Query) : queryKey (settle r q) = queryKey q.
Proof. unfold settle. now destruct (queryFn r). Qed.

Lemma panchayaths_after_fetch (c : Client) (r : Response) :
  error r = None ->
  panchayaths (state_after (fetchSettled r) c) = data r
  /\ isLoading (state_after (fetchSettled r) c) = false.
Proof.
  intros Herr. unfold panchayaths, isLoading, state_after, fetchSettled. simpl.
  rewrite (find_upsert _ _ (settle r) (settle_key r)).
  unfold settle, queryFn. rewrite Herr. simpl. split; reflexivity.
Qed.

Lemma state_after_seq {A B : Type} (m : M A) (k : M B) (c : Client) :
  state_after (m ;; k) c = state_after k (state_after m c).
Proof.
  unfold state_after, bind. destruct (m c) as [[a c1] t1]. simpl.
  destruct (k c1) as [[b c2] t2]. reflexivity.
Qed.

Lemma state_after_get {B : Type} (k : Client -> M B) (c : Client) :
  state_after (bind get k) c = state_after (k c) c.
Proof.
  unfold state_after, bind, get. destruct (k c c) as [[b c2] t2]. reflexivity.
Qed.

Lemma trace_of_seq {A B : Type} (m : M A) (k : M B) (c : Client) :
  trace_of (m ;; k) c = (trace_of m c ++ trace_of k (state_after m c))%list.
Proof.
  unfold trace_of, state_after, bind. destruct (m c) as [[a c1] t1]. simpl.
  destruct (k c1) as [[b c2] t2]. reflexivity.
Qed.

Lemma trace_of_get {B : Type} (k : Client -> M B) (c : Client) :
  trace_of (bind get k) c = trace_of (k c) c.
Proof.
  unfold trace_of, bind, get. destruct (k c c) as [[b c2] t2]. reflexivity.
Qed.

Lemma invalidateQueries_run (key : QueryKey) (c : Client) :
  invalidateQueries key c
  = (tt,
     {| isDialogOpen := isDialogOpen c;
        editingPanchayath := editingPanchayath c;
        formData := formData c;
        queryCache := map (invalidate key) (queryCache c);
        channels := channels c |},
     refetched key (queryCache c)).
Proof. reflexivity. Qed.

Lemma invalidated_list_query (c : Client) (q : Query) :
  find_query (queryCache c) listKey = Some q ->
  exists q',
    find_query (queryCache (state_after (invalidateQueries listKey) c)) listKey = Some q'
    /\ isInvalidated q' = true /\ cached q' = cached q.
Proof.
  intros Hq. exists (invalidate listKey q).
  unfold state_after. rewrite invalidateQueries_run. simpl.
  rewrite find_invalidated, Hq. simpl. split; [reflexivity|]. split.
  - apply invalidate_marks. now apply find_query_key with (cache := queryCache c).
  - apply invalidate_cached.
Qed.

(** The callbacks run by a notification touch nothing but the stale marks
    of the cache. *)
Lemma notified_frame (payload : ChangePayload) (l : list RealtimeChannel) (c : Client) :
  let c' := state_after (for_each l (fun _ => onPostgresChanges payload)) c in
  isDialogOpen c' = isDialogOpen c
  /\ editingPanchayath c' = editingPanchayath c
  /\ formData c' = formData c
  /\ channels c' = channels c
  /\ map cached (queryCache c') = map cached (queryCache c)
  /\ map queryKey (queryCache c') = map queryKey (queryCache c).
Proof.
  revert c; induction l as [|ch rest IH]; intros c; cbv zeta.
  - repeat split; reflexivity.
  - simpl for_each. rewrite state_after_seq.
    destruct (IH (state_after (onPostgresChanges payload) c))
      as [H1 [H2 [H3 [H4 [H5 H6]]]]].
    rewrite H1, H2, H3, H4, H5, H6.
    unfold onPostgresChanges, state_after. rewrite invalidateQueries_run. simpl.
    rewrite invalidated_data, invalidated_keys. repeat split; reflexivity.
Qed.

(** Invalidation and notifications cause fetches only. *)
Lemma refetched_fetches (key : QueryKey) (cache : QueryCache) (e : Effect) :
  In e (refetched key cache) -> exists k, e = Fetch k.
Proof.
  unfold refetched. intros H. apply in_map_iff in H.
  destruct H as [q [<- _]]. now exists (queryKey q).
Qed.

Lemma notified_fetches (payload : ChangePayload) (l : list RealtimeChannel)
  (c : Client) (e : Effect) :
  In e (trace_of (for_each l (fun _ => onPostgresChanges payload)) c) ->
  exists k, e = Fetch k.
Proof.
  revert c; induction l as [|ch rest IH]; intros c; simpl for_each.
  - intros [].
  - rewrite trace_of_seq. intros H. apply in_app_or in H. destruct H as [H|H].
    + unfold onPostgresChanges, trace_of in H. rewrite invalidateQueries_run in H.
      now apply refetched_fetches in H.
    + now apply IH in H.
Qed.

(** Mounting: the state and the trace it leaves. *)
Lemma observe_key (q : Query) : queryKey (observe q) = queryKey q.
Proof. unfold observe. now rewrite fetch_key. Qed.

Lemma observe_cached (q : Query) : cached (observe q) = cached q.
Proof. unfold observe. now rewrite fetch_cached. Qed.


Lemma observe_fetching (q : Query) : isFetching (observe q) = true.
Proof. unfold observe. apply fetch_fetching. Qed.

Lemma mounted_state (permissions : Permissions) (c : Client) :
  state_after (step permissions Mounted) c
  = {| isDialogOpen := isDialogOpen c;
       editingPanchayath := editingPanchayath c;
       formData := formData c;
       queryCache := upsert_query (queryCache c) listKey (fresh_query listKey) observe;
       channels := (channels c ++ [changesChannel])%list |}.
Proof.
  unfold state_after, step, useQuery_mount, useEffect_subscribe, bind, get,
    setQueryCache, setChannels, modify, emit, skip, ret.
  now destruct (starts_fetch false _).
Qed.

Lemma mounted_trace (permissions : Permissions) (c : Client) :
  trace_of (step permissions Mounted) c
  = ((if starts_fetch false
            match find_query (queryCache c) listKey with
            | Some q => q
            | None => fresh_query listKey
            end
      then [Fetch listKey] else []) ++ [Subscribe changesChannel])%list.
Proof.
  unfold trace_of, step, useQuery_mount, useEffect_subscribe, bind, get,
    setQueryCache, setChannels, modify, emit, skip, ret.
  now destruct (starts_fetch false _).
Qed.


(** *** Grouping by district *)

Lemma get_own_groups (ks : list string) (rows : list Panchayath) (k : string) :
  get_own (groups_of ks rows) k
  = if includes ks k then Some (filter (hasDistrict k) rows) else None.
Proof.
  induction ks as [|k' ks IH]; simpl; [reflexivity|].
  destruct (String.eqb_spec k' k) as [->|Hne]; simpl; [reflexivity | exact IH].
Qed.

Lemma set_own_new {V : Type} (o : JSObject V) (k : string) (v : V) :
  get_own o k = None -> set_own o k v = (o ++ [(k, v)])%list.
Proof.
  induction o as [|[k' v'] o IH]; simpl; [reflexivity|].
  destruct (String.eqb k' k); [discriminate|].
  intros H. now rewrite IH.
Qed.

Lemma get_own_last {V : Type} (o : JSObject V) (k : string) (v : V) :
  get_own o k = None -> get_own (o ++ [(k, v)])%list k = Some v.
Proof.
  induction o as [|[k' v'] o IH]; simpl.
  - now rewrite String.eqb_refl.
  - destruct (String.eqb k' k); [discriminate | exact IH].
Qed.

Lemma set_own_last {V : Type} (o : JSObject V) (k : string) (v w : V) :
  get_own o k = None -> set_own (o ++ [(k, v)])%list k w = (o ++ [(k, w)])%list.
Proof.
  induction o as [|[k' v'] o IH]; simpl.
  - now rewrite String.eqb_refl.
  - destruct (String.eqb k' k); [discriminate|]. intros H. now rewrite IH.
Qed.

Lemma filter_snoc_same (k : string) (done : list Panchayath) (p : Panchayath) :
  district p = k ->
  filter (hasDistrict k) (done ++ [p]) = (filter (hasDistrict k) done ++ [p])%list.
Proof.
  intros E. rewrite filter_app. simpl. unfold hasDistrict at 2.
  rewrite E, String.eqb_refl. reflexivity.
Qed.

Lemma filter_snoc_other (k : string) (done : list Panchayath) (p : Panchayath) :
  district p <> k ->
  filter (hasDistrict k) (done ++ [p]) = filter (hasDistrict k) done.
Proof.
  intros Hne. rewrite filter_app. simpl. unfold hasDistrict at 2.
  apply String.eqb_neq in Hne. rewrite Hne. apply app_nil_r.
Qed.

Lemma groups_snoc_other (ks : list string) (done : list Panchayath) (p : Panchayath) :
  ~ In (district p) ks -> groups_of ks (done ++ [p]) = groups_of ks done.
Proof.
  intros Hnot. unfold groups_of. apply map_ext_in. intros k Hk.
  rewrite filter_snoc_other; [reflexivity|].
  intros E. subst k. contradiction.
Qed.

Lemma groups_snoc_member (ks : list string) (done : list Panchayath) (p : Panchayath) :
  NoDup ks -> In (district p) ks ->
  set_own (groups_of ks done) (district p)
    (filter (hasDistrict (district p)) done ++ [p])%list
  = groups_of ks (done ++ [p]).
Proof.
  induction ks as [|k ks IH]; intros Hnd Hin; [contradiction|].
  inversion Hnd as [|? ? Hnot Hnd']; subst. simpl.
  destruct (String.eqb_spec k (district p)) as [E|Hne].
  - subst k. rewrite (filter_snoc_same _ _ _ eq_refl).
    now rewrite groups_snoc_other.
  - destruct Hin as [E|Hin]; [contradiction|].
    rewrite (IH Hnd' Hin). rewrite filter_snoc_other; [reflexivity | congruence].
Qed.

Lemma filter_none (k : string) (ks : list string) (done : list Panchayath) :
  (forall p, In p done -> In (district p) ks) -> ~ In k ks ->
  filter (hasDistrict k) done = [].
Proof.
  intros Hdone Hk. induction done as [|p done IH]; simpl; [reflexivity|].
  unfold hasDistrict at 1.
  destruct (String.eqb_spec (district p) k) as [E|_].
  - exfalso. apply Hk. rewrite <- E. apply Hdone. now left.
  - apply IH. intros q Hq. apply Hdone. now right.
Qed.

(** One step of the reduction, from an accumulator that holds the groups
    of the rows [done]. *)
Lemma group_step (ks : list string) (done : list Panchayath) (p : Panchayath) :
  NoDup ks ->
  (forall k, In k ks -> includes Object_prototype_names k = false) ->
  (forall q, In q done -> In (district q) ks) ->
  group (groups_of ks done) p
  = if inheritedName p
    then Throw (TypeError "acc[panchayath.district].push is not a function")
    else Normal (groups_of
                   (if includes ks (district p) then ks
                    else ks ++ [district p])%list
                   (done ++ [p])).
Proof.
  intros Hnd Hproto Hdone. unfold group, Get, inheritedName.
  rewrite get_own_groups.
  destruct (includes ks (district p)) eqn:Hin.
  - (* the district has its group already *)
    pose proof (proj1 (includes_In _ _) Hin) as Hin'.
    rewrite (Hproto _ Hin'). rewrite get_own_groups, Hin.
    now rewrite (groups_snoc_member ks done p Hnd Hin').
  - assert (Hnot : ~ In (district p) ks).
    { intros H. apply includes_In in H. congruence. }
    assert (Hnone : get_own (groups_of ks done) (district p) = None).
    { rewrite get_own_groups. now rewrite Hin. }
    destruct (includes Object_prototype_names (district p)) eqn:Hp.
    + (* an inherited name: nothing is created, and [push] is missing *)
      rewrite Hnone. reflexivity.
    + (* a new district: its group is created, then filled *)
      rewrite (set_own_new _ _ _ Hnone).
      rewrite (get_own_last _ _ _ Hnone). rewrite (set_own_last _ _ _ _ Hnone).
      f_equal. unfold groups_of at 2. rewrite map_app. cbn [map].
      fold (groups_of ks (done ++ [p])).
      rewrite (groups_snoc_other ks done p Hnot).
      rewrite (filter_snoc_same _ _ _ eq_refl).
      now rewrite (filter_none _ ks done Hdone Hnot).
Qed.

(** What the reduction computes: it raises at the first row whose district
    is a name found on [Object.prototype], and otherwise returns the groups
    of all rows under the districts in first-seen order. *)
Lemma reduce_group (rows : list Panchayath) :
  forall (ks : list string) (done : list Panchayath),
    NoDup ks ->
    (forall k, In k ks -> includes Object_prototype_names k = false) ->
    (forall p, In p done -> In (district p) ks) ->
    reduce group rows (groups_of ks done)
    = if existsb inheritedName rows
      then Throw (TypeError "acc[panchayath.district].push is not a function")
      else Normal (groups_of (first_seen ks rows) (done ++ rows)).
Proof.
  induction rows as [|p rows IH]; intros ks done Hnd Hproto Hdone.
  - cbn [reduce existsb first_seen]. now rewrite app_nil_r.
  - cbn [reduce existsb first_seen].
    rewrite (group_step ks done p Hnd Hproto Hdone).
    destruct (inheritedName p) eqn:Hp; cbn [orb]; [reflexivity|].
    rewrite IH.
    + now rewrite <- app_assoc.
    + destruct (includes ks (district p)) eqn:Hin; [assumption|].
      apply NoDup_app; [assumption | repeat constructor; simpl; tauto|].
      intros k Hk [<-|[]]. apply includes_In in Hk. congruence.
    + intros k Hk. destruct (includes ks (district p)); [auto|].
      apply in_app_or in Hk. destruct Hk as [Hk|[<-|[]]]; auto.
    + intros q Hq. apply in_app_or in Hq.
      destruct Hq as [Hq|[<-|[]]].
      * destruct (includes ks (district p)); [|apply in_or_app; left]; auto.
      * destruct (includes ks (district p)) eqn:Hin.
        -- now apply includes_In.
        -- apply in_or_app. right. now left.
Qed.

Lemma panchayathsByDistrict_closed_form (rows : list Panchayath) :
  panchayathsByDistrict (Some rows)
  = if existsb inheritedName rows
    then Throw (TypeError "acc[panchayath.district].push is not a function")
    else Normal (groups_of (first_seen [] rows) rows).
Proof.
  unfold panchayathsByDistrict.
  apply (reduce_group rows [] []); [constructor| |]; intros ? [].
Qed.

Lemma groups_keys (ks : list string) (rows : list Panchayath) :
  map fst (groups_of ks rows) = ks.
Proof. unfold groups_of. rewrite map_map. simpl. apply map_id. Qed.

Lemma first_seen_In (rows : list Panchayath) :
  forall ks k,
    In k (first_seen ks rows)
    <-> In k ks \/ exists p, In p rows /\ district p = k.
Proof.
  induction rows as [|p rows IH]; intros ks k; simpl.
  - split; [auto | intros [H|[p [[] _]]]; exact H].
  - rewrite IH. split.
    + intros [H|[q [Hq E]]].
      * destruct (includes ks (district p)); [now left|].
        apply in_app_or in H. destruct H as [H|[<-|[]]]; [now left|].
        right. exists p. auto.
      * right. exists q. auto.
    + intros [H|[q [[<-|Hq] E]]].
      * left. destruct (includes ks (district p)); [|apply in_or_app]; auto.
      * left. subst k. destruct (includes ks (district p)) eqn:Hin.
        -- now apply includes_In.
        -- apply in_or_app. right. now left.
      * right. exists q. auto.
Qed.

Lemma first_seen_NoDup (rows : list Panchayath) :
  forall ks, NoDup ks -> NoDup (first_seen ks rows).
Proof.
  induction rows as [|p rows IH]; intros ks Hnd; simpl; [assumption|].
  apply IH. destruct (includes ks (district p)) eqn:Hin; [assumption|].
  apply NoDup_app; [assumption | repeat constructor; simpl; tauto|].
  intros k Hk [<-|[]]. apply includes_In in Hk. congruence.
Qed.

(** The page in closed form: one block per district, in the order of
    [Object.keys]. *)
Lemma render_closed_form (permissions : Permissions) (c : Client)
  (fetched : list Panchayath) :
  panchayaths c = Some fetched ->
  existsb inheritedName fetched = false ->
  render permissions c
  = Normal
      {| addButton := canWrite permissions;
         blocks :=
           map (fun k =>
                  {| heading := k;
                     count := List.length (filter (hasDistrict k) fetched);
                     rows := map (renderRow permissions)
                               (filter (hasDistrict k) fetched) |})
               (Object_keys (groups_of (first_seen [] fetched) fetched));
         spinner := isLoading c;
         emptyState :=
           if negb (isLoading c)
              && match fetched with _ :: _ => false | [] => true end
           then Some "No panchayaths found. Create your first panchayath to get started."
           else None |}.
Proof.
  intros Hdata Hnames. unfold render. rewrite Hdata.
  rewrite panchayathsByDistrict_closed_form, Hnames.
  rewrite (map_array_normal _
             (fun k =>
                {| heading := k;
                   count := List.length (filter (hasDistrict k) fetched);
                   rows := map (renderRow permissions)
                             (filter (hasDistrict k) fetched) |})).
  - destruct fetched; reflexivity.
  - intros k Hk.
    apply (Permutation_in _ (Object_keys_perm _)) in Hk.
    rewrite groups_keys in Hk.
    unfold renderBlock, Get. rewrite get_own_groups.
    apply includes_In in Hk. now rewrite Hk.
Qed.

Lemma render_throws (permissions : Permissions) (c : Client)
  (fetched : list Panchayath) :
  panchayaths c = Some fetched ->
  existsb inheritedName fetched = true ->
  render permissions c
  = Throw (TypeError "acc[panchayath.district].push is not a function").
Proof.
  intros Hdata Hnames. unfold render. rewrite Hdata.
  now rewrite panchayathsByDistrict_closed_form, Hnames.
Qed.

Lemma filter_other_district (k k' : string) (rows : list Panchayath) :
  k' <> k ->
  filter (hasDistrict k') (filter (fun x => negb (hasDistrict k x)) rows)
  = filter (hasDistrict k') rows.
Proof.
  intros Hne. induction rows as [|p rows IH]; simpl; [reflexivity|].
  destruct (hasDistrict k p) eqn:Hk; simpl.
  - assert (Hk' : hasDistrict k' p = false).
    { unfold hasDistrict in *. apply String.eqb_eq in Hk.
      apply String.eqb_neq. congruence. }
    rewrite Hk'. exact IH.
  - destruct (hasDistrict k' p); [f_equal|]; exact IH.
Qed.

(** The groups partition the rows. *)
Lemma groups_partition (ks : list string) :
  forall rows : list Panchayath,
    NoDup ks -> (forall p, In p rows -> In (district p) ks) ->
    Permutation (flat_map (fun k => filter (hasDistrict k) rows) ks) rows.
Proof.
  induction ks as [|k ks IH]; intros rows Hnd Hall.
  - destruct rows as [|p rows]; [constructor|]. destruct (Hall p (or_introl eq_refl)).
  - inversion Hnd as [|? ? Hnot Hnd']; subst. simpl.
    apply Permutation_trans
      with (filter (hasDistrict k) rows
            ++ filter (fun x => negb (hasDistrict k x)) rows)%list;
      [|apply filter_split_perm].
    apply Permutation_app_head.
    rewrite (flat_map_agree
               (fun k' => filter (hasDistrict k') rows)
               (fun k' => filter (hasDistrict k')
                            (filter (fun x => negb (hasDistrict k x)) rows))
               ks).
    + apply (IH _ Hnd').
      intros p Hp. apply filter_In in Hp. destruct Hp as [Hp Hk].
      destruct (Hall p Hp) as [E|H]; [|exact H].
      unfold hasDistrict in Hk. rewrite E, String.eqb_refl in Hk. discriminate.
    + intros k' Hk'. symmetry. apply filter_other_district.
      intros E. subst k'. contradiction.
Qed.

(** Whenever the page renders, every fetched row is shown exactly once. *)
Lemma rendered_rows (permissions : Permissions) (c : Client)
  (fetched : list Panchayath) (view : View) :
  panchayaths c = Some fetched ->
  render permissions c = Normal view ->
  Permutation (flat_map rows (blocks view)) (map (renderRow permissions) fetched).
Proof.
  intros Hdata Hview.
  destruct (existsb inheritedName fetched) eqn:Hnames.
  - rewrite (render_throws permissions c fetched Hdata Hnames) in Hview. discriminate.
  - rewrite (render_closed_form permissions c fetched Hdata Hnames) in Hview.
    injection Hview as <-. simpl.
    rewrite flat_map_concat_map, map_map. simpl.
    rewrite <- (map_map (fun k => filter (hasDistrict k) fetched)
                        (map (renderRow permissions))).
    rewrite <- concat_map, <- flat_map_concat_map.
    apply Permutation_map.
    rewrite (Permutation_flat_map _ (Object_keys_perm _)).
    rewrite groups_keys.
    apply groups_partition.
    + apply first_seen_NoDup. constructor.
    + intros p Hp. apply first_seen_In. right. exists p. auto.
Qed.

(** *** Rows fetched in district-then-name order

    The list query asks the backend for [district] ascending, then [name]
    ascending.  The order the backend uses on text is a parameter here: a
    strict order [before] on districts and an order [name_le] on names. *)

Section FetchedOrder.

Variable before : string -> string -> Prop.
Variable name_le : string -> string -> Prop.
Hypothesis before_irrefl : forall x, ~ before x x.
Hypothesis before_trans : forall x y z, before x y -> before y z -> before x z.

Local Abbreviation fetched_order :=
  (fun p q : Panchayath =>
     before (district p) (district q)
     \/ (district p = district q /\ name_le (name p) (name q))).

Lemma StronglySorted_snoc {A : Type} (R : A -> A -> Prop) (l : list A) (x : A) :
  StronglySorted R l -> Forall (fun y => R y x) l -> StronglySorted R (l ++ [x]).
Proof.
  induction 1 as [|y l Hs IH Hy]; intros Hall; simpl.
  - repeat constructor.
  - inversion Hall as [|? ? Hyx Hrest]; subst. constructor; [now apply IH|].
    apply Forall_app. split; [assumption | now constructor].
Qed.

Lemma StronglySorted_filter {A : Type} (R : A -> A -> Prop) (f : A -> bool) (l : list A) :
  StronglySorted R l -> StronglySorted R (filter f l).
Proof.
  induction 1 as [|y l Hs IH Hy]; simpl; [constructor|].
  destruct (f y); [|assumption]. constructor; [assumption|].
  rewrite Forall_forall in *. intros z Hz. apply filter_In in Hz. now apply Hy.
Qed.

Lemma StronglySorted_within {A : Type} (R R' : A -> A -> Prop) (P : A -> Prop) (l : list A) :
  (forall x y, P x -> P y -> R x y -> R' x y) ->
  Forall P l -> StronglySorted R l -> StronglySorted R' l.
Proof.
  intros Himp Hall Hs. induction Hs as [|y l Hs IH Hy]; [constructor|].
  inversion Hall as [|? ? Py Pl]; subst. constructor; [now apply IH|].
  rewrite Forall_forall in *. intros z Hz. apply Himp; auto.
Qed.

(** Districts are first seen in ascending order. *)
Lemma first_seen_sorted (rows : list Panchayath) :
  StronglySorted fetched_order rows ->
  forall ks,
    StronglySorted before ks ->
    (forall k p, In k ks -> In p rows -> before k (district p) \/ k = district p) ->
    StronglySorted before (first_seen ks rows).
Proof.
  induction 1 as [|p rows Hs IH Hp]; intros ks Hks Hle; simpl; [assumption|].
  rewrite Forall_forall in Hp.
  apply IH.
  - destruct (includes ks (district p)) eqn:Hin; [assumption|].
    apply StronglySorted_snoc; [assumption|].
    rewrite Forall_forall. intros k Hk.
    destruct (Hle k p Hk (or_introl eq_refl)) as [H|H]; [assumption|].
    subst k. apply includes_In in Hk. congruence.
  - intros k q Hk Hq.
    assert (Hcases : In k ks \/ k = district p).
    { destruct (includes ks (district p)); [now left|].
      apply in_app_or in Hk. destruct Hk as [Hk|[<-|[]]]; auto. }
    destruct Hcases as [Hk' | -> ].
    + apply Hle; [assumption | now right].
    + destruct (Hp q Hq) as [H|[H _]]; auto.
Qed.

Lemma filter_absent_district (k : string) (rows : list Panchayath) :
  (forall q, In q rows -> district q <> k) ->
  filter (hasDistrict k) rows = []
  /\ filter (fun x => negb (hasDistrict k x)) rows = rows.
Proof.
  induction rows as [|q rows IH]; intros Hfar; simpl; [split; reflexivity|].
  assert (Hq : hasDistrict k q = false).
  { unfold hasDistrict. apply String.eqb_neq. apply Hfar. now left. }
  rewrite Hq. simpl.
  destruct IH as [IH1 IH2]; [intros; apply Hfar; now right|].
  split; [assumption | now f_equal].
Qed.

(** The rows of the least district form a prefix of the fetched rows. *)
Lemma least_district_prefix (k : string) (rows : list Panchayath) :
  StronglySorted fetched_order rows ->
  (forall p, In p rows -> district p = k \/ before k (district p)) ->
  (filter (hasDistrict k) rows
   ++ filter (fun x => negb (hasDistrict k x)) rows)%list = rows.
Proof.
  induction 1 as [|p rows Hs IH Hp]; intros Hall; simpl; [reflexivity|].
  destruct (hasDistrict k p) eqn:E; simpl.
  - f_equal. apply IH. intros q Hq. apply Hall. now right.
  - assert (Hpk : before k (district p)).
    { destruct (Hall p (or_introl eq_refl)) as [H|H]; [|exact H].
      unfold hasDistrict in E. rewrite H, String.eqb_refl in E. discriminate. }
    rewrite Forall_forall in Hp.
    destruct (filter_absent_district k rows) as [H1 H2].
    { intros q Hq Eq. apply (before_irrefl k).
      destruct (Hp q Hq) as [H|[H _]].
      - apply before_trans with (district p); [assumption|]. now rewrite <- Eq.
      - rewrite <- Eq at 2. now rewrite <- H. }
    now rewrite H1, H2.
Qed.

(** Read group after group, rows that were fetched in order come out in the
    order in which they were fetched. *)
Lemma groups_in_fetched_order (ks : list string) :
  forall rows : list Panchayath,
    StronglySorted before ks ->
    StronglySorted fetched_order rows ->
    (forall p, In p rows -> In (district p) ks) ->
    flat_map (fun k => filter (hasDistrict k) rows) ks = rows.
Proof.
  induction ks as [|k ks IH]; intros rows Hks Hrows Hall.
  - destruct rows as [|p rows]; [reflexivity|]. destruct (Hall p (or_introl eq_refl)).
  - apply StronglySorted_inv in Hks. destruct Hks as [Hks Hk].
    rewrite Forall_forall in Hk. simpl.
    assert (Hnot : ~ In k ks).
    { intros H. apply (before_irrefl k). now apply Hk. }
    rewrite (flat_map_agree
               (fun k' => filter (hasDistrict k') rows)
               (fun k' => filter (hasDistrict k')
                            (filter (fun x => negb (hasDistrict k x)) rows))
               ks).
    + rewrite (IH _ Hks (StronglySorted_filter _ _ _ Hrows)).
      * apply least_district_prefix; [assumption|].
        intros p Hp. destruct (Hall p Hp) as [E|H]; [now left | right; now apply Hk].
      * intros p Hp. apply filter_In in Hp. destruct Hp as [Hp Hd].
        destruct (Hall p Hp) as [E|H]; [|exact H].
        unfold hasDistrict in Hd. rewrite E, String.eqb_refl in Hd. discriminate.
    + intros k' Hk'. symmetry. apply filter_other_district.
      intros E. subst k'. contradiction.
Qed.

(** For rows fetched in district-then-name order, none of whose districts
    is an array index or a name found on [Object.prototype], the page shows:
    one block per district in ascending district order; in each block the
    rows of that district, in ascending name order; and, block after block,
    exactly the fetched rows in the order in which they were fetched. *)
Theorem districts_in_fetched_order (permissions : Permissions) (c : Client)
  (fetched : list Panchayath) :
  panchayaths c = Some fetched ->
  StronglySorted fetched_order fetched ->
  forallb (fun p => negb (isArrayIndex (district p)) && negb (inheritedName p))
          fetched = true ->
  exists view,
    render permissions c = Normal view
    /\ StronglySorted before (map heading (blocks view))
    /\ Forall (fun b =>
                 rows b = map (renderRow permissions)
                              (filter (hasDistrict (heading b)) fetched)
                 /\ StronglySorted
                      (fun r r' => name_le (nameCell r) (nameCell r'))
                      (rows b))
              (blocks view)
    /\ flat_map rows (blocks view) = map (renderRow permissions) fetched.
Proof.
  intros Hdata Hsorted Hplain.
  assert (Hnames : existsb inheritedName fetched = false).
  { clear Hdata Hsorted. induction fetched as [|p rows IH]; simpl in *; [reflexivity|].
    apply andb_true_iff in Hplain. destruct Hplain as [Hp Hrest].
    apply andb_true_iff in Hp. destruct Hp as [_ Hp].
    apply negb_true_iff in Hp. rewrite Hp. now apply IH. }
  assert (Hkeys : Object_keys (groups_of (first_seen [] fetched) fetched)
                  = first_seen [] fetched).
  { rewrite Object_keys_creation_order; rewrite groups_keys; [reflexivity|].
    apply forallb_forall. intros k Hk.
    apply first_seen_In in Hk. destruct Hk as [[]|[p [Hp <-]]].
    rewrite forallb_forall in Hplain. specialize (Hplain p Hp).
    apply andb_true_iff in Hplain. tauto. }
  assert (Hks : StronglySorted before (first_seen [] fetched)).
  { apply first_seen_sorted; [assumption | constructor | intros k p []]. }
  eexists. split; [apply (render_closed_form permissions c fetched Hdata Hnames)|].
  simpl. rewrite Hkeys. split; [|split].
  - rewrite map_map. simpl. now rewrite map_id.
  - rewrite Forall_forall. intros b Hb. apply in_map_iff in Hb.
    destruct Hb as [k [<- Hk]]. simpl. split; [reflexivity|].
    assert (Hgroup : StronglySorted (fun p q => name_le (name p) (name q))
                       (filter (hasDistrict k) fetched)).
    { apply StronglySorted_within
        with (R := fetched_order) (P := fun p => district p = k).
      - intros x y Hx Hy [H|[_ H]]; [|exact H].
        rewrite Hx, Hy in H. now apply before_irrefl in H.
      - rewrite Forall_forall. intros p Hp. apply filter_In in Hp.
        destruct Hp as [_ Hp]. now apply String.eqb_eq in Hp.
      - now apply StronglySorted_filter. }
    clear -Hgroup. induction Hgroup as [|p l Hs IH Hp]; simpl; constructor; auto.
    rewrite Forall_forall in *. intros r Hr. apply in_map_iff in Hr.
    destruct Hr as [q [<- Hq]]. simpl. now apply Hp.
  - rewrite flat_map_concat_map, map_map. simpl.
    rewrite <- (map_map (fun k => filter (hasDistrict k) fetched)
                        (map (renderRow permissions))).
    rewrite <- concat_map, <- flat_map_concat_map. f_equal.
    apply groups_in_fetched_order; [assumption | assumption|].
    intros p Hp. apply first_seen_In. right. exists p. auto.
Qed.

End FetchedOrder.

(** The theorem at the lexical order of strings, on the example of the
    specification: names A and B in district X, name C in district Y. *)
Example districts_in_fetched_order_example :
  exists view,
    render (mkPermissions true true)
      (state_after
         (fetchSettled
            {| data := Some [ mkPanchayath "1" "A" "X" "" "";
                              mkPanchayath "2" "B" "X" "" "";
                              mkPanchayath "3" "C" "Y" "" "" ];
               error := None |})
         (initial []))
    = Normal view
    /\ StronglySorted OrderedTypeEx.String_as_OT.lt (map heading (blocks view))
    /\ Forall (fun b =>
                 rows b
                 = map (renderRow (mkPermissions true true))
                     (filter (hasDistrict (heading b))
                        [ mkPanchayath "1" "A" "X" "" "";
                          mkPanchayath "2" "B" "X" "" "";
                          mkPanchayath "3" "C" "Y" "" "" ])
                 /\ StronglySorted
                      (fun r r' => String.leb (nameCell r) (nameCell r') = true)
                      (rows b))
              (blocks view)
    /\ flat_map rows (blocks view)
       = map (renderRow (mkPermissions true true))
           [ mkPanchayath "1" "A" "X" "" "";
             mkPanchayath "2" "B" "X" "" "";
             mkPanchayath "3" "C" "Y" "" "" ].
Proof.
  apply (districts_in_fetched_order
           OrderedTypeEx.String_as_OT.lt
           (fun a b => String.leb a b = true)
           (fun x H => OrderedTypeEx.String_as_OT.lt_not_eq x x H eq_refl)
           OrderedTypeEx.String_as_OT.lt_trans).
  - reflexivity.
  - assert (HXY : OrderedTypeEx.String_as_OT.lt "X" "Y").
    { apply OrderedTypeEx.String_as_OT.lts_head. apply Nat.ltb_lt. reflexivity. }
    constructor; [constructor; [constructor; constructor|]|].
    + constructor; [left; exact HXY | constructor].
    + constructor; [right; split; reflexivity|].
      constructor; [left; exact HXY | constructor].
  - reflexivity.
Qed.

(** *** Permission and confirmation guards *)

Ltac run_handler :=
  unfold state_after, trace_of, handleDelete, handleSubmit,
    savePanchayathMutation_mutationFn, deletePanchayathMutation_mutationFn,
    savePanchayathMutation_settled, deletePanchayathMutation_settled,
    savePanchayathMutation_onError, deletePanchayathMutation_onError,
    toast, skip, bind, ret, get, emit; simpl.

(** C4. A delete request is sent only if [permissions.canDelete] holds and
    the user confirms, and then it is the deletion of the row with the given
    id; a save request is sent only if [permissions.canWrite] holds.  When
    the permission is missing or the confirmation is declined, no request
    reaches the backend and the client state is what it was.  No other event
    of the component sends a write: whatever happens, a delete request comes
    from a confirmed, permitted click on delete, and an update or insert
    from a permitted submission. *)
Theorem requests_are_gated (permissions : Permissions) (c : Client)
  (id now : string) (confirmed : bool) :
  let deletion := handleDelete permissions id confirmed in
  let submission := handleSubmit permissions now in
  (existsb isBackendRequest (trace_of deletion c) = true ->
     canDelete permissions = true /\ confirmed = true)
  /\ (canDelete permissions = true -> confirmed = true ->
      filter isBackendRequest (trace_of deletion c)
      = [Backend (Delete "panchayaths" (Filter_eq "id" id))])
  /\ (canDelete permissions = false \/ confirmed = false ->
      state_after deletion c = c
      /\ filter isBackendRequest (trace_of deletion c) = [])
  /\ (canDelete permissions = false -> trace_of deletion c = [])
  /\ (existsb isBackendRequest (trace_of submission c) = true ->
      canWrite permissions = true)
  /\ (canWrite permissions = false ->
      state_after submission c = c
      /\ filter isBackendRequest (trace_of submission c) = [])
  /\ (forall ev request,
        In (Backend request) (trace_of (step permissions ev) c) ->
        match request with
        | Delete _ _ =>
            canDelete permissions = true /\ exists rowId, ev = DeleteClicked rowId true
        | Update _ _ _ | Insert _ _ =>
            canWrite permissions = true /\ exists time, ev = FormSubmitted time
        | Select _ _ _ => False
        end).
Proof.
  cbv zeta. split; [|split; [|split; [|split; [|split; [|split]]]]].
  - destruct permissions as [w d]; destruct d, confirmed; simpl;
      auto; discriminate.
  - destruct permissions as [w d]; simpl. intros -> ->. reflexivity.
  - destruct permissions as [w d]; simpl.
    intros [-> | ->]; [split; reflexivity|]. destruct d; split; reflexivity.
  - destruct permissions as [w d]; simpl. intros ->. reflexivity.
  - destruct permissions as [w d]; destruct w; simpl; auto; discriminate.
  - destruct permissions as [w d]; simpl. intros ->. split; reflexivity.
  - intros ev request Hin.
    destruct ev as [ | | |row|rowId answer|value|value|time|open
                    |failure|failure|r|payload]; simpl step in Hin.
    + change (In (Backend request) (trace_of (step permissions Mounted) c)) in Hin.
      rewrite mounted_trace in Hin.
      destruct (starts_fetch false _); simpl in Hin.
      * destruct Hin as [H|[H|[]]]; discriminate.
      * destruct Hin as [H|[]]; discriminate.
    + simpl in Hin. destruct Hin as [H|[]]; discriminate.
    + destruct Hin.
    + destruct Hin.
    + destruct permissions as [w d]; destruct d, answer; simpl in Hin.
      * destruct Hin as [H|[H|[]]]; [discriminate|].
        injection H as <-. split; [reflexivity | now exists rowId].
      * destruct Hin as [H|[]]. discriminate.
      * destruct Hin.
      * destruct Hin.
    + destruct Hin.
    + destruct Hin.
    + destruct permissions as [w d]; destruct w.
      * unfold trace_of, handleSubmit, savePanchayathMutation_mutationFn,
          bind, get, emit in Hin. simpl in Hin.
        destruct (editingPanchayath c); simpl in Hin;
          destruct Hin as [H|[H|[]]]; try discriminate;
          injection H as <-; (split; [reflexivity | now exists time]).
      * simpl in Hin. destruct Hin as [H|[]]. discriminate.
    + destruct Hin.
    + destruct failure as [e|].
      * simpl in Hin. destruct Hin as [H|[]]. discriminate.
      * unfold savePanchayathMutation_settled, savePanchayathMutation_onSuccess in Hin.
        rewrite trace_of_get, trace_of_seq in Hin.
        apply in_app_or in Hin. destruct Hin as [Hin|Hin].
        -- unfold trace_of in Hin. rewrite invalidateQueries_run in Hin.
           apply refetched_fetches in Hin. destruct Hin as [k Hk]. discriminate.
        -- simpl in Hin. destruct Hin as [H|[]]. discriminate.
    + destruct failure as [e|].
      * simpl in Hin. destruct Hin as [H|[]]. discriminate.
      * unfold deletePanchayathMutation_settled, deletePanchayathMutation_onSuccess in Hin.
        rewrite trace_of_seq in Hin.
        apply in_app_or in Hin. destruct Hin as [Hin|Hin].
        -- unfold trace_of in Hin. rewrite invalidateQueries_run in Hin.
           apply refetched_fetches in Hin. destruct Hin as [k Hk]. discriminate.
        -- simpl in Hin. destruct Hin as [H|[]]. discriminate.
    + destruct Hin.
    + unfold notify in Hin. rewrite trace_of_get in Hin.
      apply notified_fetches in Hin. destruct Hin as [k Hk]. discriminate.
Qed.

(** *** Create or update *)

(** C5. The save mutation sends exactly one request: when an editing
    selection is active, an update of the [panchayaths] row whose id is the
    selection's, carrying the submitted fields and [updated_at] set to the
    current time; when none is active, an insert of the submitted fields as
    one new row.  Submitting the form with write permission runs it on the
    form state, so a form holding name [n] and district [d] sends
    [{name: n, district: d, updated_at: now}] or inserts
    [{name: n, district: d}]. *)
Theorem save_updates_iff_editing (c : Client) (panchayathData : JSObject string)
  (now : string) :
  trace_of (savePanchayathMutation_mutationFn panchayathData now) c
  = match editingPanchayath c with
    | Some editing =>
        [Backend (Update "panchayaths"
                    (set_own (spread panchayathData) "updated_at" now)
                    (Filter_eq "id" (id editing)))]
    | None => [Backend (Insert "panchayaths" [panchayathData])]
    end
  /\ (forall del open n d cache chans editing,
        trace_of (handleSubmit (mkPermissions true del) now)
          (mkClient open (Some editing) (form n d) cache chans)
        = [PreventDefault;
           Backend (Update "panchayaths"
                      [("name", n); ("district", d); ("updated_at", now)]
                      (Filter_eq "id" (id editing)))])
  /\ (forall del open n d cache chans,
        trace_of (handleSubmit (mkPermissions true del) now)
          (mkClient open None (form n d) cache chans)
        = [PreventDefault; Backend (Insert "panchayaths" [form n d])]).
Proof.
  split; [|split].
  - run_handler. destruct (editingPanchayath c); reflexivity.
  - intros. reflexivity.
  - intros. reflexivity.
Qed.

(** *** Failure *)

(** C7. A mutation that the backend rejects changes nothing on the client:
    after the attempt and its failure the whole client state (cached list,
    form, dialog, editing selection, channels) is what it was before the
    attempt; the failure sends no further request (the mutation is not
    retried) and shows one toast whose text is fixed per operation and does
    not depend on the error; in particular the cached list is the same and
    is not even marked stale after a rejected delete. *)
Theorem failed_mutation_changes_nothing (permissions : Permissions) (c : Client)
  (id now : string) (confirmed : bool) (error : PostgrestError) :
  let save := handleSubmit permissions now in
  let save_failed := (save ;; savePanchayathMutation_settled (Some error))%handler in
  let deletion := handleDelete permissions id confirmed in
  let deletion_failed :=
    (deletion ;; deletePanchayathMutation_settled (Some error))%handler in
  state_after save_failed c = c
  /\ state_after deletion_failed c = c
  /\ panchayaths (state_after deletion_failed c) = panchayaths c
  /\ trace_of save_failed c
     = (trace_of save c
        ++ [ShowToast {| title := "Operation Failed";
                         description := "Failed to save panchayath. Please try again.";
                         destructive := true |}])%list
  /\ trace_of deletion_failed c
     = (trace_of deletion c
        ++ [ShowToast {| title := "Delete Failed";
                         description :=
                           "Failed to delete panchayath. It may be in use by registrations.";
                         destructive := true |}])%list
  /\ (forall c', state_after (savePanchayathMutation_settled (Some error)) c' = c'
                 /\ state_after (deletePanchayathMutation_settled (Some error)) c' = c').
Proof.
  assert (Hsave : state_after (handleSubmit permissions now ;;
                               savePanchayathMutation_settled (Some error)) c = c).
  { destruct permissions as [w d]; destruct w; run_handler;
      destruct (editingPanchayath c); reflexivity. }
  assert (Hdel : state_after (handleDelete permissions id confirmed ;;
                              deletePanchayathMutation_settled (Some error)) c = c).
  { destruct permissions as [w d]; destruct d, confirmed; reflexivity. }
  cbv zeta. repeat split.
  - exact Hsave.
  - exact Hdel.
  - now rewrite Hdel.
  - destruct permissions as [w d]; destruct w; run_handler;
      destruct (editingPanchayath c); reflexivity.
  - destruct permissions as [w d]; destruct d, confirmed; reflexivity.
Qed.

(** *** Success *)

Lemma invalidated_find (c : Client) (q : Query) :
  find_query (queryCache c) listKey = Some q ->
  find_query (queryCache (state_after (invalidateQueries listKey) c)) listKey
  = Some (invalidate listKey q).
Proof.
  intros Hq. unfold state_after. rewrite invalidateQueries_run. simpl.
  now rewrite find_invalidated, Hq.
Qed.

Lemma length_filter_perm {A : Type} (f : A -> bool) (l l' : list A) :
  Permutation l l' -> List.length (filter f l) = List.length (filter f l').
Proof.
  induction 1 as [|x l l' _ IH|x y l|l l' l'' _ IH1 _ IH2]; simpl.
  - reflexivity.
  - destruct (f x); simpl; congruence.
  - destruct (f x), (f y); reflexivity.
  - congruence.
Qed.

Lemma length_filter_map {A B : Type} (f : B -> bool) (g : A -> B) (l : list A) :
  List.length (filter f (map g l)) = List.length (filter (fun x => f (g x)) l).
Proof.
  induction l as [|x l IH]; simpl; [reflexivity|].
  destruct (f (g x)); simpl; congruence.
Qed.

(** Whenever the page renders, a fetched row is in the block of its
    district. *)
Lemma rendered_in_block (permissions : Permissions) (c : Client)
  (fetched : list Panchayath) (view : View) (p : Panchayath) :
  panchayaths c = Some fetched ->
  render permissions c = Normal view ->
  In p fetched ->
  exists b, In b (blocks view) /\ heading b = district p
            /\ In (renderRow permissions p) (rows b).
Proof.
  intros Hdata Hview Hp.
  destruct (existsb inheritedName fetched) eqn:Hnames.
  - rewrite (render_throws permissions c fetched Hdata Hnames) in Hview. discriminate.
  - rewrite (render_closed_form permissions c fetched Hdata Hnames) in Hview.
    injection Hview as <-. simpl.
    eexists. split; [|split].
    + apply in_map_iff. exists (district p). split; [reflexivity|].
      apply (Permutation_in _ (Permutation_sym (Object_keys_perm _))).
      rewrite groups_keys. apply first_seen_In. right. exists p. auto.
    + reflexivity.
    + simpl. apply in_map. apply filter_In. split; [assumption|].
      unfold hasDistrict. apply String.eqb_refl.
Qed.

(** C6, with the input at which its last part fails.  When a save (create
    or update) or a delete succeeds, the list query is marked stale and its
    data is not edited locally; being observed it is fetched: a fetch starts,
    unless the first fetch of the list is still under way, which then goes
    on.  After a successful save the dialog is closed, the editing selection
    is cleared and the form is empty again; a successful delete leaves those
    three as they are.  When the fetch settles, the list of the component is
    the array the backend returned, and if the page renders it, every row is
    shown under the heading of its district, as many table rows carry an id
    as fetched rows do: a row the backend returns once is shown once.  But
    the page does not render every list: after the creation of a panchayath
    in a district named [constructor] has succeeded and the list has been
    fetched again, rendering raises a TypeError and nothing is shown. *)
Theorem success_invalidates_and_resets (permissions : Permissions) (c : Client)
  (answer : list Panchayath) :
  let saved := state_after (step permissions (SaveSettled None)) c in
  let deleted := state_after (step permissions (DeleteSettled None)) c in
  let refreshed :=
    state_after (step permissions (FetchSettled {| data := Some answer; error := None |}))
      saved in
  let session :=
    [ Mounted; FetchSettled {| data := Some []; error := None |};
      AddClicked; NameTyped "D"; DistrictTyped "constructor";
      FormSubmitted "2024-06-01T10:00:00.000Z"; SaveSettled None;
      FetchSettled
        {| data := Some [mkPanchayath "4" "D" "constructor"
                           "2024-06-01T10:00:00.000Z" "2024-06-01T10:00:00.000Z"];
           error := None |} ] in
  (forall q,
     find_query (queryCache c) listKey = Some q ->
     find_query (queryCache saved) listKey = Some (invalidate listKey q)
     /\ find_query (queryCache deleted) listKey = Some (invalidate listKey q)
     /\ isInvalidated (invalidate listKey q) = true
     /\ cached (invalidate listKey q) = cached q
     /\ (active q = true ->
         isFetching (invalidate listKey q) = true
         /\ (starts_fetch true q = true ->
             In (Fetch listKey) (trace_of (step permissions (SaveSettled None)) c)
             /\ In (Fetch listKey) (trace_of (step permissions (DeleteSettled None)) c))))
  /\ (forall e, In e (trace_of (step permissions (SaveSettled None)) c) ->
                (exists k, e = Fetch k) \/ (exists t, e = ShowToast t))
  /\ (isDialogOpen saved, editingPanchayath saved, formData saved)
     = (false, None, form "" "")
  /\ (isDialogOpen deleted, editingPanchayath deleted, formData deleted)
     = (isDialogOpen c, editingPanchayath c, formData c)
  /\ panchayaths refreshed = Some answer
  /\ (forall view,
        render permissions refreshed = Normal view ->
        (forall rowId,
           List.length (filter (fun row => String.eqb (rowKey row) rowId)
                          (flat_map rows (blocks view)))
           = List.length (filter (fun p => String.eqb (id p) rowId) answer))
        /\ (forall p, In p answer ->
              exists b, In b (blocks view) /\ heading b = district p
                        /\ In (renderRow permissions p) (rows b)))
  /\ (forall p, In p answer -> district p = "constructor" ->
        render permissions refreshed
        = Throw (TypeError "acc[panchayath.district].push is not a function"))
  /\ snd (run (mkPermissions true true) session (initial []))
     = [ Fetch listKey; Subscribe changesChannel; PreventDefault;
         Backend (Insert "panchayaths" [form "D" "constructor"]);
         Fetch listKey;
         ShowToast {| title := "Panchayath Created";
                      description := "Panchayath has been created successfully.";
                      destructive := false |} ]
  /\ render (mkPermissions true true)
       (fst (run (mkPermissions true true) session (initial [])))
     = Throw (TypeError "acc[panchayath.district].push is not a function").
Proof.
  cbv zeta.
  assert (Hrefreshed :
    panchayaths
      (state_after
         (step permissions (FetchSettled {| data := Some answer; error := None |}))
         (state_after (step permissions (SaveSettled None)) c)) = Some answer).
  { apply (panchayaths_after_fetch _ {| data := Some answer; error := None |}).
    reflexivity. }
  split; [|split; [|split; [|split; [|split; [|split; [|split; [|split]]]]]]].
  - intros q Hq.
    pose proof (find_query_key _ _ _ Hq) as Hk.
    split; [exact (invalidated_find c q Hq)|].
    split; [exact (invalidated_find c q Hq)|].
    split; [now apply invalidate_marks|].
    split; [apply invalidate_cached|].
    intros Ha. split; [now apply invalidate_fetching|].
    intros Hs. split.
    + unfold trace_of. simpl. apply in_or_app. left.
      now apply refetched_starts with (q := q).
    + unfold trace_of. simpl. apply in_or_app. left.
      now apply refetched_starts with (q := q).
  - intros e He. unfold trace_of in He. simpl in He.
    apply in_app_or in He. destruct He as [He|[<-|[]]].
    + left. now apply refetched_fetches in He.
    + right. eexists. reflexivity.
  - reflexivity.
  - reflexivity.
  - exact Hrefreshed.
  - intros view Hview. split.
    + intros rowId.
      rewrite (length_filter_perm _ _ _
                 (rendered_rows permissions _ answer view Hrefreshed Hview)).
      apply length_filter_map.
    + intros p Hp.
      exact (rendered_in_block permissions _ answer view p Hrefreshed Hview Hp).
  - intros p Hp Hd.
    apply (render_throws permissions _ answer Hrefreshed).
    apply existsb_exists. exists p. split; [assumption|].
    unfold inheritedName. now rewrite Hd.
  - reflexivity.
  - reflexivity.
Qed.

(** *** The realtime subscription *)















(** *** A session

    The component mounts and the list arrives; a row is edited and saved,
    which starts a fetch; a change is announced while that fetch is under
    way, which replaces it; a delete is confirmed and rejected by the
    backend, and the component unmounts: what leaves the component, in
    order. *)
Example session_trace :
  snd (run (mkPermissions true true)
         [ Mounted;
           FetchSettled
             {| data := Some [mkPanchayath "7" "Areekode" "Malappuram" "" ""];
                error := None |};
           EditClicked (mkPanchayath "7" "Areekode" "Malappuram" "" "");
           NameTyped "Areacode";
           FormSubmitted "2024-06-01T10:00:00.000Z";
           SaveSettled None;
           ChangeNotified (mkPayload UPDATE "public" "panchayaths" None None);
           DeleteClicked "7" true;
           DeleteSettled (Some (mkError "violates foreign key constraint"));
           Unmounted ]
         (initial []))
  = [ Fetch listKey;
      Subscribe changesChannel;
      PreventDefault;
      Backend (Update "panchayaths"
                 [("name", "Areacode"); ("district", "Malappuram");
                  ("updated_at", "2024-06-01T10:00:00.000Z")]
                 (Filter_eq "id" "7"));
      Fetch listKey;
      ShowToast {| title := "Panchayath Updated";
                   description := "Panchayath has been updated successfully.";
                   destructive := false |};
      Fetch listKey;
      Confirm "Are you sure you want to delete this panchayath?";
      Backend (Delete "panchayaths" (Filter_eq "id" "7"));
      ShowToast {| title := "Delete Failed";
                   description :=
                     "Failed to delete panchayath. It may be in use by registrations.";
                   destructive := true |};
      RemoveChannel changesChannel ].
Proof. reflexivity. Qed.

(** Before the first answer nothing is fetched twice: a notification, a
    successful save and a second mount that come while the first fetch of
    the list is under way start no fetch. *)
Example first_fetch_not_repeated :
  snd (run (mkPermissions true true)
         [ Mounted;
           ChangeNotified (mkPayload INSERT "public" "panchayaths" None None);
           SaveSettled None;
           DeleteSettled None;
           Mounted ]
         (initial []))
  = [ Fetch listKey;
      Subscribe changesChannel;
      ShowToast {| title := "Panchayath Created";
                   description := "Panchayath has been created successfully.";
                   destructive := false |};
      ShowToast {| title := "Panchayath Deleted";
                   description := "Panchayath has been deleted successfully.";
                   destructive := false |};
      Subscribe changesChannel ].
Proof. reflexivity. Qed.

(** *** The update payload *)

Lemma spread_form (n d : string) : spread (form n d) = form n d.
Proof. reflexivity. Qed.

(** The form state always has the shape [{ name, district }]. *)
Lemma form_shape_step (permissions : Permissions) (ev : Event) (c : Client) :
  (exists n d, formData c = form n d) ->
  exists n d, formData (state_after (step permissions ev) c) = form n d.
Proof.
  intros [n [d Hform]].
  destruct ev as [ | | |row|rowId confirmed|value|value|now|open
                  |failure|failure|r|payload]; simpl step.
  - exists n, d.
    change (formData (state_after (step permissions Mounted) c) = form n d).
    now rewrite mounted_state.
  - exists n, d. exact Hform.
  - exists "", "". reflexivity.
  - eexists _, _. reflexivity.
  - exists n, d. unfold handleDelete.
    destruct (canDelete permissions); [destruct confirmed|]; exact Hform.
  - exists value, d. unfold state_after, onChange_name. simpl.
    now rewrite Hform, spread_form.
  - exists n, value. unfold state_after, onChange_district. simpl.
    now rewrite Hform, spread_form.
  - exists n, d. unfold handleSubmit.
    destruct (canWrite permissions); [|exact Hform].
    unfold state_after, savePanchayathMutation_mutationFn, bind, get, emit. simpl.
    destruct (editingPanchayath c); exact Hform.
  - exists n, d. exact Hform.
  - destruct failure as [e|].
    + exists n, d. exact Hform.
    + exists "", "". reflexivity.
  - exists n, d. destruct failure as [e|]; exact Hform.
  - exists n, d. exact Hform.
  - exists n, d. unfold notify. rewrite state_after_get.
    destruct (notified_frame payload
                (filter (fun ch => listens ch payload) (channels c)) c)
      as [_ [_ [H _]]].
    now rewrite H.
Qed.

Lemma reachable_form_shape (permissions : Permissions) (c : Client) :
  reachable permissions c -> exists n d, formData c = form n d.
Proof.
  induction 1 as [cache|c ev Hc IH].
  - exists "", "". reflexivity.
  - now apply form_shape_step.
Qed.

(** C9. In every state the component can reach, submitting the form while
    an editing selection is active (and writing is permitted) sends one
    update whose payload has exactly the fields [name], [district] and
    [updated_at], in particular neither [id] nor [created_at], and whose
    filter selects the rows whose id is the editing selection's and no
    others. *)
Theorem update_payload_fields (permissions : Permissions) (c : Client)
  (editing : Panchayath) (now : string) :
  reachable permissions c ->
  canWrite permissions = true ->
  editingPanchayath c = Some editing ->
  exists n d,
    formData c = form n d
    /\ trace_of (handleSubmit permissions now) c
       = [PreventDefault;
          Backend (Update "panchayaths"
                     [("name", n); ("district", d); ("updated_at", now)]
                     (Filter_eq "id" (id editing)))]
    /\ get_own [("name", n); ("district", d); ("updated_at", now)] "id" = None
    /\ get_own [("name", n); ("district", d); ("updated_at", now)] "created_at" = None
    /\ (forall row,
          selects (Filter_eq "id" (id editing)) row = true <-> id row = id editing).
Proof.
  intros Hreach Hwrite Hedit.
  destruct (reachable_form_shape permissions c Hreach) as [n [d Hform]].
  exists n, d. split; [exact Hform|]. split; [|split; [|split]].
  - unfold trace_of, handleSubmit. rewrite Hwrite.
    unfold savePanchayathMutation_mutationFn, bind, get, emit. simpl.
    rewrite Hedit, Hform. reflexivity.
  - reflexivity.
  - reflexivity.
  - intros row. simpl. apply String.eqb_eq.
Qed.

Lemma update_payload_fields_witness :
  reachable (mkPermissions true false)
    (state_after (step (mkPermissions true false) (NameTyped "Areacode"))
       (state_after
          (step (mkPermissions true false)
             (EditClicked
                (mkPanchayath "7" "Areekode" "Malappuram" "2024-01-01" "2024-01-01")))
          (initial [])))
  /\ canWrite (mkPermissions true false) = true
  /\ editingPanchayath
       (state_after (step (mkPermissions true false) (NameTyped "Areacode"))
          (state_after
             (step (mkPermissions true false)
                (EditClicked
                   (mkPanchayath "7" "Areekode" "Malappuram"
                      "2024-01-01" "2024-01-01")))
             (initial [])))
     = Some (mkPanchayath "7" "Areekode" "Malappuram" "2024-01-01" "2024-01-01")
  /\ exists n d,
       formData
         (state_after (step (mkPermissions true false) (NameTyped "Areacode"))
            (state_after
               (step (mkPermissions true false)
                  (EditClicked
                     (mkPanchayath "7" "Areekode" "Malappuram"
                        "2024-01-01" "2024-01-01")))
               (initial [])))
       = form n d
       /\ trace_of (handleSubmit (mkPermissions true false) "2024-06-01T10:00:00.000Z")
            (state_after (step (mkPermissions true false) (NameTyped "Areacode"))
               (state_after
                  (step (mkPermissions true false)
                     (EditClicked
                        (mkPanchayath "7" "Areekode" "Malappuram"
                           "2024-01-01" "2024-01-01")))
                  (initial [])))
          = [PreventDefault;
             Backend (Update "panchayaths"
                        [("name", n); ("district", d);
                         ("updated_at", "2024-06-01T10:00:00.000Z")]
                        (Filter_eq "id" "7"))]
       /\ get_own [("name", n); ("district", d);
                   ("updated_at", "2024-06-01T10:00:00.000Z")] "id" = None
       /\ get_own [("name", n); ("district", d);
                   ("updated_at", "2024-06-01T10:00:00.000Z")] "created_at" = None
       /\ (forall row,
             selects (Filter_eq "id" "7") row = true <-> id row = "7").
Proof.
  assert (Hreach :
    reachable (mkPermissions true false)
      (state_after (step (mkPermissions true false) (NameTyped "Areacode"))
         (state_after
            (step (mkPermissions true false)
               (EditClicked
                  (mkPanchayath "7" "Areekode" "Malappuram" "2024-01-01" "2024-01-01")))
            (initial [])))).
  { apply reachable_step. apply reachable_step. apply reachable_initial. }
  split; [exact Hreach|]. split; [reflexivity|]. split; [reflexivity|].
  exact (update_payload_fields (mkPermissions true false) _
           (mkPanchayath "7" "Areekode" "Malappuram" "2024-01-01" "2024-01-01")
           "2024-06-01T10:00:00.000Z" Hreach eq_refl eq_refl).
Defined.

(** *** Empty and missing row sets *)

(** C10. When a fetch succeeds with [data] null, the public [queryFn]
    returns the empty array and the page shows no card and the
    no-categories text; on the admin screen the list is null, grouping it
    gives the empty object, and the page renders, without raising, no block,
    no spinner and the no-panchayaths text. *)
Theorem missing_rows_show_empty_state (permissions : Permissions) (c : Client) :
  let no_categories :=
    {| CategoriesPage.data := None; CategoriesPage.error := None |} in
  let no_panchayaths := {| data := None; error := None |} in
  let c' := state_after (step permissions (FetchSettled no_panchayaths)) c in
  CategoriesPage.queryFn no_categories = Normal []
  /\ CategoriesPage.render (CategoriesPage.settled no_categories)
     = CategoriesPage.ListingView [] (Some "No categories available at the moment.")
  /\ panchayaths c' = None
  /\ panchayathsByDistrict (panchayaths c') = Normal empty_object
  /\ Object_keys (@empty_object (list Panchayath)) = []
  /\ render permissions c'
     = Normal
         {| addButton := canWrite permissions;
            blocks := [];
            spinner := false;
            emptyState :=
              Some "No panchayaths found. Create your first panchayath to get started." |}.
Proof.
  cbv zeta.
  destruct (panchayaths_after_fetch c {| data := None; error := None |} eq_refl)
    as [Hdata Hloading].
  simpl data in Hdata. simpl step.
  repeat split; try reflexivity.
  - exact Hdata.
  - now rewrite Hdata.
  - unfold render. rewrite Hdata, Hloading. reflexivity.
Qed.

(** *** Districts whose name is a number or a name of [Object.prototype] *)

(** The example of the specification: two blocks, [X] before [Y], names in
    order. *)
Example grouping_example (permissions : Permissions) :
  let fetched :=
    [ mkPanchayath "1" "A" "X" "" ""; mkPanchayath "2" "B" "X" "" "";
      mkPanchayath "3" "C" "Y" "" "" ] in
  let c := state_after (fetchSettled {| data := Some fetched; error := None |})
             (initial []) in
  exists view,
    render permissions c = Normal view
    /\ map (fun b => (heading b, map nameCell (rows b))) (blocks view)
       = [("X", ["A"; "B"]); ("Y", ["C"])].
Proof. eexists. split; reflexivity. Qed.

(** C3, at the inputs where the code departs from it.  Rows of the
    districts ["007"], ["10"] and ["9"], fetched in that (ascending text)
    order, are shown under the headings 9, 10, 007: [Object.keys] lists the
    keys that are array indices first, in numeric order, and the other keys
    after them.  A row whose district is ["constructor"] makes the grouping
    raise a TypeError, so the page shows nothing. *)
Theorem numeric_districts_out_of_order (permissions : Permissions) :
  let fetched :=
    [ mkPanchayath "1" "A" "007" "" ""; mkPanchayath "2" "B" "10" "" "";
      mkPanchayath "3" "C" "9" "" "" ] in
  let c := state_after (fetchSettled {| data := Some fetched; error := None |})
             (initial []) in
  let c' :=
    state_after
      (fetchSettled
         {| data := Some [mkPanchayath "4" "D" "constructor" "" ""];
            error := None |})
      (initial []) in
  (String.ltb "007" "10" && String.ltb "10" "9")%bool = true
  /\ map district fetched = ["007"; "10"; "9"]
  /\ (exists view,
        render permissions c = Normal view
        /\ map heading (blocks view) = ["9"; "10"; "007"])
  /\ render permissions c'
     = Throw (TypeError "acc[panchayath.district].push is not a function").
Proof.
  cbv zeta. split; [reflexivity|]. split; [reflexivity|]. split.
  - eexists. split; reflexivity.
  - reflexivity.
Qed.

End PanchayathsManagementFacts.

(** * Further properties *)

(** ** Reading and writing object properties *)

Module JSObjectFacts.

Import JS JSFacts.
Open Scope string_scope.

Lemma get_set_own {V : Type} (o : JSObject V) (k : string) (v : V) (k' : string) :
  get_own (set_own o k v) k' = if String.eqb k k' then Some v else get_own o k'.
Proof.
  induction o as [|[k0 v0] o IH]; simpl; [reflexivity|].
  destruct (String.eqb_spec k0 k) as [->|Hne]; simpl.
  - now destruct (String.eqb k k').
  - rewrite IH. destruct (String.eqb_spec k0 k') as [->|Hne']; [|reflexivity].
    apply not_eq_sym in Hne. apply String.eqb_neq in Hne. now rewrite Hne.
Qed.

Lemma get_own_In {V : Type} (o : JSObject V) (k : string) (v : V) :
  get_own o k = Some v -> In k (map fst o).
Proof.
  induction o as [|[k0 v0] o IH]; simpl; [discriminate|].
  destruct (String.eqb_spec k0 k) as [->|Hne]; [now left | right; now apply IH].
Qed.

Lemma get_own_absent {V : Type} (o : JSObject V) (k : string) :
  ~ In k (map fst o) -> get_own o k = None.
Proof.
  intros Hnot. destruct (get_own o k) as [v|] eqn:E; [|reflexivity].
  exfalso. apply Hnot. now apply get_own_In with (v := v).
Qed.

Lemma get_own_copied {V : Type} (o : JSObject V) (ks : list string) (k : string) :
  get_own
    (flat_map (fun k' => match get_own o k' with
                         | Some v => [(k', v)]
                         | None => []
                         end) ks) k
  = if includes ks k then get_own o k else None.
Proof.
  induction ks as [|k0 ks IH]; simpl; [reflexivity|].
  destruct (get_own o k0) as [v|] eqn:E; simpl.
  - destruct (String.eqb_spec k0 k) as [<-|Hne]; simpl; [now rewrite E | exact IH].
  - rewrite IH. destruct (String.eqb_spec k0 k) as [<-|Hne]; simpl; [|reflexivity].
    rewrite E. now destruct (includes ks k0).
Qed.

(** The spread of an object has the properties of the object. *)
Lemma get_own_spread {V : Type} (o : JSObject V) (k : string) :
  get_own (spread o) k = get_own o k.
Proof.
  unfold spread. rewrite get_own_copied.
  destruct (includes (Object_keys o) k) eqn:Hin; [reflexivity|].
  destruct (get_own o k) as [v|] eqn:E; [|reflexivity].
  apply get_own_In in E.
  apply (Permutation_in _ (Permutation_sym (Object_keys_perm o))) in E.
  apply includes_In in E. congruence.
Qed.

(** [{ ...prev, k: v }] holds [v] under [k] and what [prev] held under
    every other key. *)
Lemma get_own_spread_set {V : Type} (prev : JSObject V) (k : string) (v : V)
  (k' : string) :
  get_own (set_own (spread prev) k v) k'
  = if String.eqb k k' then Some v else get_own prev k'.
Proof. now rewrite get_set_own, get_own_spread. Qed.

End JSObjectFacts.

(** ** The public category page, continued *)

Module CategoriesPageMore.

Import JS JSFacts JSObjectFacts CategoriesPage CategoriesPageFacts.
Open Scope string_scope.
Open Scope Z_scope.

(** *** Re-sorting *)

(** X1. Sorting a listing that [queryFn] has produced gives the same
    listing again: a re-fetched, already ordered array is not reshuffled. *)
Theorem resorting_changes_nothing (fetched : list Category) :
  match queryFn {| data := Some fetched; error := None |} with
  | Normal shown => queryFn {| data := Some shown; error := None |} = Normal shown
  | Throw _ => False
  end.
Proof.
  change (queryFn {| data := Some fetched; error := None |})
    with (Normal (Array_sort comparefn fetched)).
  cbv iota beta.
  change (queryFn {| data := Some (Array_sort comparefn fetched); error := None |})
    with (Normal (Array_sort comparefn (Array_sort comparefn fetched))).
  f_equal. symmetry.
  apply (Array_sort_characterised Category rank comparefn comparefn_rank).
  - apply (Array_sort_sorted Category rank comparefn comparefn_rank).
  - reflexivity.
Qed.

Lemma no_such_name (n : string) (fetched : list Category) :
  In n categoryOrder ->
  forallb (fun c => negb (includes categoryOrder (name c))) fetched = true ->
  filter (fun c => String.eqb (name c) n) fetched = [].
Proof.
  intros Hn Hall. induction fetched as [|c rest IH]; [reflexivity|].
  cbn [forallb] in Hall. cbn [filter].
  apply andb_true_iff in Hall. destruct Hall as [Hc Hrest].
  destruct (String.eqb_spec (name c) n) as [E|_]; [|now apply IH].
  apply negb_true_iff in Hc. rewrite E in Hc.
  apply includes_In in Hn. congruence.
Qed.

(** X2. When no fetched category has a name of the priority list, the
    listing is the fetched array as it came, that is, in the order of the
    backend. *)
Theorem unlisted_names_keep_backend_order (fetched : list Category) :
  forallb (fun c => negb (includes categoryOrder (name c))) fetched = true ->
  queryFn {| data := Some fetched; error := None |} = Normal fetched.
Proof.
  intros Hall. rewrite categories_shown. f_equal.
  rewrite (forallb_filter_id _ _ Hall).
  assert (Hnone : forall ns,
             incl ns categoryOrder ->
             flat_map (fun n => filter (fun c => String.eqb (name c) n) fetched) ns = []).
  { induction ns as [|n ns IH]; intros Hincl; simpl; [reflexivity|].
    rewrite (no_such_name n fetched); [|apply Hincl; now left | exact Hall].
    apply IH. intros x Hx. apply Hincl. now right. }
  now rewrite (Hnone categoryOrder (incl_refl _)).
Qed.

Lemma unlisted_names_keep_backend_order_witness :
  forallb (fun c => negb (includes categoryOrder (name c)))
    [ mkCategory "1" "Tailoring" (Number_of_Z 500) (Number_of_Z 300)
        true false None None "" "";
      mkCategory "2" "Bakery" (Number_of_Z 400) (Number_of_Z 400)
        true false None None "" "" ] = true
  /\ queryFn
       {| data :=
            Some [ mkCategory "1" "Tailoring" (Number_of_Z 500) (Number_of_Z 300)
                     true false None None "" "";
                   mkCategory "2" "Bakery" (Number_of_Z 400) (Number_of_Z 400)
                     true false None None "" "" ];
          error := None |}
     = Normal
         [ mkCategory "1" "Tailoring" (Number_of_Z 500) (Number_of_Z 300)
             true false None None "" "";
           mkCategory "2" "Bakery" (Number_of_Z 400) (Number_of_Z 400)
             true false None None "" "" ].
Proof.
  split; [reflexivity|].
  apply (unlisted_names_keep_backend_order
           [ mkCategory "1" "Tailoring" (Number_of_Z 500) (Number_of_Z 300)
               true false None None "" "";
             mkCategory "2" "Bakery" (Number_of_Z 400) (Number_of_Z 400)
               true false None None "" "" ]).
  reflexivity.
Defined.

(** *** The page after a fetch *)

(** X3. After a fetch the page shows either the fixed error text (whenever
    the answer carries an error, whatever its message and even if rows came
    with it) or a listing with one card per fetched row, the cards' keys
    being the rows' ids; the no-categories text is shown exactly when there
    is no card. *)
Theorem page_after_fetch (r : Response) :
  match error r with
  | Some _ =>
      render (settled r) = ErrorView "Error loading categories. Please try again later."
  | None =>
      exists cards,
        render (settled r)
        = ListingView cards
            match cards with
            | [] => Some "No categories available at the moment."
            | _ :: _ => None
            end
        /\ List.length cards
           = List.length match data r with Some d => d | None => [] end
        /\ Permutation (map key cards)
             (map id match data r with Some d => d | None => [] end)
  end.
Proof.
  destruct r as [d e]. simpl error. simpl data.
  destruct e as [e|]; [reflexivity|].
  destruct d as [d|].
  - exists (map renderCard (Array_sort comparefn d)).
    split; [|split].
    + unfold settled, queryFn. simpl.
      destruct (Array_sort comparefn d); reflexivity.
    + rewrite length_map.
      apply Permutation_length, Permutation_sym, Array_sort_perm.
    + rewrite map_map. simpl.
      apply Permutation_map, Permutation_sym, Array_sort_perm.
  - exists []. repeat split; constructor.
Qed.

(** *** Card decoration *)

(** X4. A card that is not highlighted always gets one of the seven
    gradients (the array is never read out of range), cards seven positions
    apart get the same one, and a highlighted card gets the gold gradient at
    every position. *)
Theorem card_gradient_cycles (index : nat) :
  (exists g, getCardGradient index false = Some g /\ In g gradients)
  /\ getCardGradient (index + 7) false = getCardGradient index false
  /\ getCardGradient index true = Some "from-yellow-400 via-yellow-500 to-yellow-600".
Proof.
  split; [|split; [|reflexivity]].
  - unfold getCardGradient.
    destruct (nth_error gradients (Nat.modulo index (List.length gradients))) as [g|] eqn:E.
    + exists g. split; [reflexivity|]. now apply nth_error_In in E.
    + apply nth_error_None in E.
      pose proof (Nat.mod_upper_bound index (List.length gradients)) as Hlt.
      simpl in *. lia.
  - unfold getCardGradient. f_equal. simpl List.length.
    replace (index + 7)%nat with (index + 1 * 7)%nat by lia.
    apply Nat.Div0.mod_add.
Qed.

(** X5. A category whose name is a key of the logo table shows that
    logo; any other name shows the crown, as "Job Card" does alone among
    the names of the priority list, unless it is a name found on
    [Object.prototype], for which an image without a usable source is
    shown. *)
Theorem category_logo (categoryName : string) (isHighlighted : bool) :
  (In categoryName (map fst logoMap) ->
   exists url,
     get_own logoMap categoryName = Some url
     /\ getCategoryLogo categoryName isHighlighted
        = LogoImage (Some url) (categoryName ++ " logo"))
  /\ (~ In categoryName (map fst logoMap) ->
      includes Object_prototype_names categoryName = false ->
      getCategoryLogo categoryName isHighlighted = CrownIcon)
  /\ (includes Object_prototype_names categoryName = true ->
      getCategoryLogo categoryName isHighlighted
      = LogoImage None (categoryName ++ " logo"))
  /\ (forall n, In n categoryOrder -> n <> "Job Card" -> In n (map fst logoMap))
  /\ ~ In "Job Card" (map fst logoMap).
Proof.
  split; [|split; [|split; [|split]]].
  - simpl. intros H.
    repeat (destruct H as [<-|H]; [eexists; split; reflexivity|]). destruct H.
  - intros Hnot Hproto. unfold getCategoryLogo, Get.
    now rewrite (get_own_absent logoMap categoryName Hnot), Hproto.
  - intros Hproto. apply includes_In in Hproto. simpl in Hproto.
    repeat (destruct Hproto as [<-|Hproto]; [reflexivity|]). destruct Hproto.
  - simpl. intros n H Hne. intuition congruence.
  - simpl. intuition discriminate.
Qed.

(** X6. Every card shows exactly one description: the text written for
    its name when the name is in the priority list, the general text
    otherwise.  (The list of names the general text excludes is the priority
    list.) *)
Theorem one_description (categoryName : string) :
  describedNames = categoryOrder
  /\ exists text,
       description categoryName = [text]
       /\ (text = "Professional registration service for your business needs."
           <-> ~ In categoryName categoryOrder).
Proof.
  split; [reflexivity|].
  destruct (in_dec string_dec categoryName categoryOrder) as [Hin|Hnot].
  - simpl in Hin.
    repeat (destruct Hin as [<-|Hin];
            [eexists; split; [reflexivity|];
             split; [discriminate | simpl; intros H; exfalso; apply H; tauto]|]).
    destruct Hin.
  - exists "Professional registration service for your business needs.".
    split; [|tauto].
    assert (Hinc : includes describedNames categoryName = false).
    { destruct (includes describedNames categoryName) eqn:E; [|reflexivity].
      apply includes_In in E. contradiction. }
    unfold description. rewrite Hinc.
    simpl in Hnot.
    assert (Hne : forall n, In n categoryOrder -> String.eqb categoryName n = false).
    { intros n Hn. apply String.eqb_neq. intros ->. apply Hnot. exact Hn. }
    rewrite !Hne by (simpl; tauto). reflexivity.
Qed.

(** *** Fees *)

(** X7. When the offer fee equals a finite regular fee, the card shows
    savings of zero and a discount of zero; when the offer fee is zero, the
    card carries the Free badge and the savings are the regular fee. *)
Theorem equal_and_free_fees (category : Category) :
  (offer_fee category = actual_fee category ->
   (exists s m e, actual_fee category = S754_finite s m e)
   \/ (exists s, actual_fee category = S754_zero s) ->
   youSave (renderCard category) = Number_of_Z 0
   /\ discountPercent (renderCard category) = Number_of_Z 0)
  /\ (offer_fee category = Number_of_Z 0 ->
      free (renderCard category) = true
      /\ youSave (renderCard category) = actual_fee category).
Proof.
  split.
  - intros Hsame Hfinite. simpl. unfold savings, discount. rewrite Hsame.
    destruct Hfinite as [[s [m [e ->]]]|[s ->]].
    + assert (Hsub : Number_sub (S754_finite s m e) (S754_finite s m e)
                     = S754_zero false).
      { unfold Number_sub, SFsub. rewrite Z.sub_diag. reflexivity. }
      rewrite Hsub. split; [reflexivity|]. destruct s; reflexivity.
    + destruct s; split; reflexivity.
  - intros Hfree. simpl. unfold savings. rewrite Hfree.
    split; [reflexivity|].
    destruct (actual_fee category) as [s|s| |s m e]; try reflexivity.
    destruct s; reflexivity.
Qed.

End CategoriesPageMore.

(** ** The admin panchayath screen, continued *)

Module PanchayathsManagementMore.

Import JS JSFacts JSObjectFacts PanchayathsManagement PanchayathsManagementFacts.
Open Scope string_scope.

(** *** Typing into the form *)

Lemma read_get_own (o : JSObject string) (k : string) : read o k = get_own o k.
Proof.
  unfold read, Get. destruct (get_own o k); [reflexivity|].
  now destruct (includes Object_prototype_names k).
Qed.

(** X8. Typing into one of the two inputs sets that field of the form
    state and leaves every other field, the dialog, the editing selection,
    the cache and the channels as they were; it sends nothing; and typing a
    name and a district gives the same form whichever is typed first. *)
Theorem typing_changes_one_field (permissions : Permissions) (c : Client)
  (v w k : string) :
  let named := state_after (step permissions (NameTyped v)) c in
  let placed := state_after (step permissions (DistrictTyped w)) c in
  get_own (formData named) k
  = (if String.eqb "name" k then Some v else get_own (formData c) k)
  /\ get_own (formData placed) k
     = (if String.eqb "district" k then Some w else get_own (formData c) k)
  /\ (isDialogOpen named, editingPanchayath named, queryCache named, channels named)
     = (isDialogOpen c, editingPanchayath c, queryCache c, channels c)
  /\ (isDialogOpen placed, editingPanchayath placed, queryCache placed, channels placed)
     = (isDialogOpen c, editingPanchayath c, queryCache c, channels c)
  /\ trace_of (step permissions (NameTyped v)) c = []
  /\ trace_of (step permissions (DistrictTyped w)) c = []
  /\ get_own (formData (state_after (step permissions (DistrictTyped w)) named)) k
     = get_own (formData (state_after (step permissions (NameTyped v)) placed)) k.
Proof.
  cbv zeta. unfold state_after, trace_of. simpl.
  repeat split; try reflexivity; rewrite ?get_own_spread_set; try reflexivity.
  destruct (String.eqb_spec "district" k) as [<-|_]; [reflexivity|].
  destruct (String.eqb_spec "name" k) as [<-|_]; reflexivity.
Qed.

(** *** From a click to the request *)

Lemma run_cons (permissions : Permissions) (ev : Event) (rest : list Event)
  (c : Client) :
  run permissions (ev :: rest) c
  = (fst (run permissions rest (state_after (step permissions ev) c)),
     (trace_of (step permissions ev) c
      ++ snd (run permissions rest (state_after (step permissions ev) c)))%list).
Proof.
  simpl. unfold state_after, trace_of.
  destruct (step permissions ev c) as [[u c1] t1]. simpl.
  destruct (run permissions rest c1) as [c2 t2]. reflexivity.
Qed.

Lemma run_app (permissions : Permissions) (evs1 evs2 : list Event) :
  forall c,
    run permissions (evs1 ++ evs2) c
    = (fst (run permissions evs2 (fst (run permissions evs1 c))),
       (snd (run permissions evs1 c)
        ++ snd (run permissions evs2 (fst (run permissions evs1 c))))%list).
Proof.
  induction evs1 as [|ev evs1 IH]; intros c.
  - simpl. now destruct (run permissions evs2 c).
  - rewrite <- app_comm_cons, !run_cons, IH. simpl. now rewrite app_assoc.
Qed.

Lemma run_keystrokes (permissions : Permissions) (keys : list Keystroke) :
  forall shown dialog editing n d cache chans,
    shown = (n, d) ->
    run permissions (map keystroke_event keys)
      (mkClient dialog editing (form n d) cache chans)
    = (mkClient dialog editing
         (form (fst (fold_left type_into keys shown))
               (snd (fold_left type_into keys shown)))
         cache chans,
       []).
Proof.
  induction keys as [|key keys IH]; intros shown dialog editing n d cache chans ->.
  - reflexivity.
  - simpl map. rewrite run_cons. destruct key as [value|value]; simpl keystroke_event.
    + change (state_after (step permissions (NameTyped value))
                (mkClient dialog editing (form n d) cache chans))
        with (mkClient dialog editing (form value d) cache chans).
      rewrite (IH (value, d) dialog editing value d cache chans eq_refl). reflexivity.
    + change (state_after (step permissions (DistrictTyped value))
                (mkClient dialog editing (form n d) cache chans))
        with (mkClient dialog editing (form n value) cache chans).
      rewrite (IH (n, value) dialog editing n value cache chans eq_refl). reflexivity.
Qed.

(** X9. After a click on "Add Panchayath", whatever was being edited
    before and whatever is then typed, submitting with write permission sends
    one insert of the typed name and district (the last value typed into
    each input, or the empty string) and no update. *)
Theorem add_then_submit_inserts (canDelete : bool) (c : Client)
  (keys : list Keystroke) (now : string) :
  snd (run (mkPermissions true canDelete)
         (AddClicked :: map keystroke_event keys ++ [FormSubmitted now]) c)
  = [ PreventDefault;
      Backend (Insert "panchayaths"
                 [form (fst (fold_left type_into keys ("", "")))
                       (snd (fold_left type_into keys ("", "")))]) ].
Proof.
  rewrite run_cons, run_app.
  change (state_after (step (mkPermissions true canDelete) AddClicked) c)
    with (mkClient true None (form "" "") (queryCache c) (channels c)).
  rewrite (run_keystrokes _ keys ("", "") true None "" "" _ _ eq_refl).
  reflexivity.
Qed.

(** X10. After a click on the edit button of a row, submitting with write
    permission sends one update of the row with that row's id; it carries
    the row's own name and district where nothing was typed, the last typed
    value otherwise, and the current time as [updated_at]. *)
Theorem edit_then_submit_updates (canDelete : bool) (c : Client)
  (row : Panchayath) (keys : list Keystroke) (now : string) :
  snd (run (mkPermissions true canDelete)
         (EditClicked row :: map keystroke_event keys ++ [FormSubmitted now]) c)
  = [ PreventDefault;
      Backend (Update "panchayaths"
                 [ ("name", fst (fold_left type_into keys (name row, district row)));
                   ("district", snd (fold_left type_into keys (name row, district row)));
                   ("updated_at", now) ]
                 (Filter_eq "id" (id row))) ].
Proof.
  rewrite run_cons, run_app.
  change (state_after (step (mkPermissions true canDelete) (EditClicked row)) c)
    with (mkClient true (Some row) (form (name row) (district row))
            (queryCache c) (channels c)).
  rewrite (run_keystrokes _ keys (name row, district row) true (Some row)
             (name row) (district row) _ _ eq_refl).
  reflexivity.
Qed.

(** *** What the page shows *)

Lemma map_array_Forall2 {A B : Type} (f : A -> Completion B) (l : list A) :
  forall ys, map_array f l = Normal ys -> Forall2 (fun x y => f x = Normal y) l ys.
Proof.
  induction l as [|x l IH]; simpl; intros ys H.
  - injection H as <-. constructor.
  - destruct (f x) as [y|e] eqn:E; [|discriminate].
    destruct (map_array f l) as [ys'|e]; [|discriminate].
    injection H as <-. constructor; [assumption | now apply IH].
Qed.

(** X11. The page never offers an action the permissions do not cover:
    the add button and the form dialog are there only with write permission,
    every row has an edit button exactly with write permission and a delete
    button exactly with delete permission. *)
Theorem buttons_follow_permissions (permissions : Permissions) (c : Client) :
  match render permissions c with
  | Normal view =>
      addButton view = canWrite permissions
      /\ Forall (fun b =>
                   Forall (fun r => editButton r = canWrite permissions
                                    /\ deleteButton r = canDelete permissions)
                          (rows b))
                (blocks view)
  | Throw _ => True
  end
  /\ (renderDialog permissions c = None <-> canWrite permissions = false).
Proof.
  split.
  - unfold render. destruct (panchayathsByDistrict (panchayaths c)) as [o|e]; [|exact I].
    destruct (map_array (renderBlock permissions o) (Object_keys o)) as [bs|e] eqn:E;
      [|exact I].
    split; [reflexivity|]. simpl.
    apply map_array_Forall2 in E.
    induction E as [|k b ks bs Hb _ IH]; constructor; [|exact IH].
    unfold renderBlock in Hb. destruct (Get o k) as [members| |]; try discriminate.
    injection Hb as <-. simpl. apply Forall_forall. intros r Hr.
    apply in_map_iff in Hr. destruct Hr as [p [<- _]]. split; reflexivity.
  - unfold renderDialog. destruct (canWrite permissions); split;
      intros H; try reflexivity; discriminate.
Qed.

Lemma counts_add_up (bs : list Block) :
  Forall (fun b => count b = List.length (rows b)) bs ->
  list_sum (map count bs) = List.length (flat_map rows bs).
Proof.
  induction 1 as [|b bs Hb _ IH]; simpl; [reflexivity|].
  now rewrite length_app, Hb, IH.
Qed.

(** X12. Whatever list was fetched, if the page renders then its blocks
    partition the list by district: the headings are distinct, each block
    holds exactly the fetched rows of its district in fetched order, no
    block is empty, each count is the number of rows of its block, and the
    counts add up to the number of fetched rows. *)
Theorem blocks_partition_rows (permissions : Permissions) (c0 : Client)
  (fetched : list Panchayath) :
  match render permissions
          (state_after (fetchSettled {| data := Some fetched; error := None |}) c0)
  with
  | Normal view =>
      NoDup (map heading (blocks view))
      /\ Forall (fun b =>
                   rows b = map (renderRow permissions)
                                (filter (hasDistrict (heading b)) fetched)
                   /\ count b = List.length (rows b)
                   /\ (0 < count b)%nat)
                (blocks view)
      /\ list_sum (map count (blocks view)) = List.length fetched
  | Throw _ => True
  end.
Proof.
  destruct (panchayaths_after_fetch c0 {| data := Some fetched; error := None |} eq_refl)
    as [Hdata _]. simpl data in Hdata.
  destruct (render permissions
              (state_after (fetchSettled {| data := Some fetched; error := None |}) c0))
    as [view|e] eqn:Hview; [|exact I].
  pose proof (rendered_rows permissions _ fetched view Hdata Hview) as Hperm.
  destruct (existsb inheritedName fetched) eqn:Hnames.
  { rewrite (render_throws permissions _ fetched Hdata Hnames) in Hview. discriminate. }
  rewrite (render_closed_form permissions _ fetched Hdata Hnames) in Hview.
  injection Hview as <-. simpl blocks in *.
  assert (Hkeys : Permutation
                    (Object_keys (groups_of (first_seen [] fetched) fetched))
                    (first_seen [] fetched)).
  { rewrite Object_keys_perm. now rewrite groups_keys. }
  assert (Hblocks :
    Forall (fun b =>
              rows b = map (renderRow permissions)
                           (filter (hasDistrict (heading b)) fetched)
              /\ count b = List.length (rows b)
              /\ (0 < count b)%nat)
      (map (fun k =>
              {| heading := k;
                 count := List.length (filter (hasDistrict k) fetched);
                 rows := map (renderRow permissions)
                           (filter (hasDistrict k) fetched) |})
           (Object_keys (groups_of (first_seen [] fetched) fetched)))).
  { apply Forall_forall. intros b Hb. apply in_map_iff in Hb.
    destruct Hb as [k [<- Hk]]. simpl.
    split; [reflexivity|]. split; [now rewrite length_map|].
    apply (Permutation_in _ Hkeys) in Hk. apply first_seen_In in Hk.
    destruct Hk as [[]|[p [Hp Hd]]].
    assert (Hin : In p (filter (hasDistrict k) fetched)).
    { apply filter_In. split; [assumption|]. unfold hasDistrict.
      now apply String.eqb_eq. }
    destruct (filter (hasDistrict k) fetched); [destruct Hin | simpl; lia]. }
  split; [|split].
  - rewrite map_map. simpl. rewrite map_id.
    apply (Permutation_NoDup (Permutation_sym Hkeys)).
    apply first_seen_NoDup. constructor.
  - exact Hblocks.
  - rewrite counts_add_up.
    + rewrite (Permutation_length Hperm). apply length_map.
    + eapply Forall_impl; [|exact Hblocks]. simpl. tauto.
Qed.

(** X13. The page fails to render exactly when some fetched row has a
    district that is one of the names every object inherits from
    [Object.prototype]; the failure is a TypeError raised while grouping. *)
Theorem render_fails_iff (permissions : Permissions) (c0 : Client)
  (fetched : list Panchayath) :
  let c := state_after (fetchSettled {| data := Some fetched; error := None |}) c0 in
  ((exists e, render permissions c = Throw e)
   <-> exists row,
         In row fetched /\ In (district row) Object_prototype_names)
  /\ (forall e, render permissions c = Throw e ->
        e = TypeError "acc[panchayath.district].push is not a function").
Proof.
  cbv zeta.
  destruct (panchayaths_after_fetch c0 {| data := Some fetched; error := None |} eq_refl)
    as [Hdata _]. simpl data in Hdata.
  destruct (existsb inheritedName fetched) eqn:Hnames.
  - rewrite (render_throws permissions _ fetched Hdata Hnames).
    split; [|intros e H; now injection H].
    split; [|intros _; eexists; reflexivity].
    intros _. apply existsb_exists in Hnames. destruct Hnames as [row [Hrow Hp]].
    exists row. split; [assumption|]. now apply includes_In.
  - rewrite (render_closed_form permissions _ fetched Hdata Hnames).
    split; [|intros e H; discriminate].
    split; [intros [e H]; discriminate|].
    intros [row [Hrow Hp]]. exfalso.
    assert (H : existsb inheritedName fetched = true).
    { apply existsb_exists. exists row. split; [assumption|].
      unfold inheritedName. now apply includes_In. }
    congruence.
Qed.

(** *** A failed fetch *)

Lemma panchayaths_after_failed_fetch (c : Client) (r : Response) (e : PostgrestError) :
  error r = Some e ->
  panchayaths (state_after (fetchSettled r) c) = panchayaths c
  /\ isLoading (state_after (fetchSettled r) c) = false.
Proof.
  intros Herr. unfold panchayaths, isLoading, state_after, fetchSettled. simpl.
  rewrite (find_upsert _ _ (settle r) (settle_key r)).
  unfold settle, queryFn. rewrite Herr. simpl.
  split; [|reflexivity]. now destruct (find_query (queryCache c) listKey).
Qed.

(** A fetch that fails leaves the list query in error, stale and idle, with
    the data it had: the next invalidation or mount fetches it again. *)
Lemma failed_fetch_leaves_stale (c : Client) (r : Response) (e : PostgrestError)
  (q : Query) :
  error r = Some e ->
  find_query (queryCache c) listKey = Some q ->
  exists q',
    find_query (queryCache (state_after (fetchSettled r) c)) listKey = Some q'
    /\ status q' = Errored
    /\ isInvalidated q' = true
    /\ cached q' = cached q
    /\ starts_fetch true q' = true
    /\ starts_fetch false q' = true.
Proof.
  intros Herr Hq. exists (settle r q). split.
  - unfold state_after, fetchSettled. simpl.
    now rewrite (find_upsert _ _ (settle r) (settle_key r)), Hq.
  - unfold settle, queryFn. rewrite Herr. repeat split; reflexivity.
Qed.

(** X14. The component reads only [data] and [isLoading] of its query.
    When the list has never been loaded and the fetch settles with an
    error, the page therefore shows no block, no spinner and the
    no-panchayaths text, as it does for an empty table; the error is not
    shown. *)
Theorem failed_first_fetch_looks_empty (permissions : Permissions) (c : Client)
  (rows : option (list Panchayath)) (e : PostgrestError) :
  panchayaths c = None ->
  render permissions
    (state_after (step permissions (FetchSettled {| data := rows; error := Some e |})) c)
  = Normal
      {| addButton := canWrite permissions;
         blocks := [];
         spinner := false;
         emptyState :=
           Some "No panchayaths found. Create your first panchayath to get started." |}.
Proof.
  intros Hnone. simpl step.
  destruct (panchayaths_after_failed_fetch c {| data := rows; error := Some e |} e eq_refl)
    as [Hdata Hloading].
  unfold render. rewrite Hdata, Hnone, Hloading. reflexivity.
Qed.

Lemma failed_first_fetch_looks_empty_witness :
  panchayaths (state_after (step (mkPermissions true true) Mounted) (initial [])) = None
  /\ render (mkPermissions true true)
       (state_after
          (step (mkPermissions true true)
             (FetchSettled {| data := None; error := Some (mkError "timeout") |}))
          (state_after (step (mkPermissions true true) Mounted) (initial [])))
     = Normal
         {| addButton := true;
            blocks := [];
            spinner := false;
            emptyState :=
              Some "No panchayaths found. Create your first panchayath to get started." |}.
Proof.
  split; [reflexivity|].
  apply (failed_first_fetch_looks_empty (mkPermissions true true)
           (state_after (step (mkPermissions true true) Mounted) (initial []))
           None (mkError "timeout")).
  reflexivity.
Defined.

(** *** Notifications and channels *)

(** X15. A mounted component reacts to no notification about another
    schema or table, and an unmounted one to no notification at all: the
    state stays as it is and nothing is fetched. *)
Theorem foreign_changes_ignored (permissions : Permissions) (cache : QueryCache)
  (payload : ChangePayload) :
  let mounted := state_after (step permissions Mounted) (initial cache) in
  let unmounted := state_after (step permissions Unmounted) mounted in
  ((String.eqb "public" (payload_schema payload)
    && String.eqb "panchayaths" (payload_table payload))%bool = false ->
   step permissions (ChangeNotified payload) mounted = (tt, mounted, []))
  /\ step permissions (ChangeNotified payload) unmounted = (tt, unmounted, []).
Proof.
  cbv zeta. rewrite mounted_state. split.
  - intros Hother. unfold step at 1, notify, bind, get.
    cbn [channels initial app filter].
    change (listens changesChannel payload)
      with (String.eqb "public" (payload_schema payload)
            && String.eqb "panchayaths" (payload_table payload))%bool.
    rewrite Hother. reflexivity.
  - reflexivity.
Qed.

Lemma channel_eqb_eq (a b : RealtimeChannel) : channel_eqb a b = true <-> a = b.
Proof.
  destruct a as [t1 e1 s1 n1], b as [t2 e2 s2 n2]. unfold channel_eqb. simpl.
  rewrite !andb_true_iff, !String.eqb_eq. split.
  - intros [[[-> ->] ->] ->]. reflexivity.
  - intros H. injection H as -> -> -> ->. auto.
Qed.

Lemma find_mapped (g : Query -> Query) (cache : QueryCache) (key : QueryKey) :
  (forall q, queryKey (g q) = queryKey q) ->
  find_query (map g cache) key = option_map g (find_query cache key).
Proof.
  intros Hg. unfold find_query. induction cache as [|q rest IH]; simpl; [reflexivity|].
  rewrite Hg. now destruct (key_eqb (queryKey q) key).
Qed.

(** X16. Unmounting after mounting removes the component's own channel and
    keeps every other channel; the dialog, the editing selection, the form
    and the cached list are what they were before mounting, and the pair of
    events subscribes once and removes once.  Mounting starts one fetch of
    the list, unless a fetch of it is already under way (a second mount
    before the first select has answered): then it starts none. *)
Theorem unmount_removes_own_channel (permissions : Permissions) (c : Client) :
  let cycled :=
    state_after (step permissions Unmounted) (state_after (step permissions Mounted) c) in
  channels cycled
  = filter (fun ch => negb (channel_eqb ch changesChannel)) (channels c)
  /\ ~ In changesChannel (channels cycled)
  /\ (forall ch, In ch (channels c) -> ch <> changesChannel -> In ch (channels cycled))
  /\ (isDialogOpen cycled, editingPanchayath cycled, formData cycled)
     = (isDialogOpen c, editingPanchayath c, formData c)
  /\ panchayaths cycled = panchayaths c
  /\ snd (run permissions [Mounted; Unmounted] c)
     = (match find_query (queryCache c) listKey with
        | Some q => if isFetching q then [] else [Fetch listKey]
        | None => [Fetch listKey]
        end
        ++ [Subscribe changesChannel; RemoveChannel changesChannel])%list.
Proof.
  cbv zeta. rewrite mounted_state.
  assert (Hch :
    channels
      (state_after (step permissions Unmounted)
         {| isDialogOpen := isDialogOpen c;
            editingPanchayath := editingPanchayath c;
            formData := formData c;
            queryCache := upsert_query (queryCache c) listKey (fresh_query listKey) observe;
            channels := (channels c ++ [changesChannel])%list |})
    = filter (fun ch => negb (channel_eqb ch changesChannel)) (channels c)).
  { unfold state_after. simpl. rewrite filter_app. simpl. apply app_nil_r. }
  split; [exact Hch|]. rewrite Hch. split; [|split; [|split; [|split]]].
  - intros H. apply filter_In in H. destruct H as [_ H].
    apply negb_true_iff in H.
    assert (E : channel_eqb changesChannel changesChannel = true) by now apply channel_eqb_eq.
    congruence.
  - intros ch Hin Hne. apply filter_In. split; [assumption|].
    apply negb_true_iff. destruct (channel_eqb ch changesChannel) eqn:E; [|reflexivity].
    apply channel_eqb_eq in E. contradiction.
  - reflexivity.
  - unfold panchayaths, state_after. simpl.
    rewrite (find_mapped
               (fun q => if key_eqb (queryKey q) listKey then unobserve q else q)).
    + rewrite (find_upsert _ _ observe observe_key). simpl.
      destruct (find_query (queryCache c) listKey) as [q|] eqn:E; simpl.
      * rewrite observe_key, (find_query_key _ _ _ E), key_eqb_refl. simpl.
        now rewrite observe_cached.
      * reflexivity.
    + intros q. now destruct (key_eqb (queryKey q) listKey).
  - pose proof (mounted_trace permissions c) as Ht.
    pose proof (mounted_state permissions c) as Hs.
    unfold trace_of in Ht. unfold state_after in Hs.
    unfold run. destruct (step permissions Mounted c) as [[u c1] t1].
    simpl in Ht, Hs. subst c1 t1.
    unfold starts_fetch. rewrite andb_false_r, orb_false_r.
    destruct (find_query (queryCache c) listKey) as [q|]; simpl.
    + destruct (isFetching q); reflexivity.
    + reflexivity.
Qed.

(** *** Other screens' queries *)

Lemma others_after_map (g : Query -> Query) (cache : QueryCache) :
  (forall q, queryKey (g q) = queryKey q) ->
  (forall q, key_matches listKey (queryKey q) = false -> g q = q) ->
  filter (fun q => negb (key_matches listKey (queryKey q))) (map g cache)
  = filter (fun q => negb (key_matches listKey (queryKey q))) cache.
Proof.
  intros Hkey Hframe. induction cache as [|q rest IH]; [reflexivity|].
  cbn [map filter]. rewrite Hkey, IH.
  destruct (key_matches listKey (queryKey q)) eqn:E; cbn [negb]; [reflexivity|].
  now rewrite (Hframe q E).
Qed.

Lemma others_after_upsert (f : Query -> Query) (cache : QueryCache) :
  (forall q, queryKey (f q) = queryKey q) ->
  filter (fun q => negb (key_matches listKey (queryKey q)))
    (upsert_query cache listKey (fresh_query listKey) f)
  = filter (fun q => negb (key_matches listKey (queryKey q))) cache.
Proof.
  intros Hkey. induction cache as [|q rest IH]; cbn [upsert_query filter].
  - rewrite Hkey. change (queryKey (fresh_query listKey)) with listKey.
    now rewrite key_matches_refl.
  - destruct (key_eqb (queryKey q) listKey) eqn:E; cbn [filter].
    + rewrite Hkey. apply key_eqb_eq in E. rewrite E, key_matches_refl. reflexivity.
    + now rewrite IH.
Qed.

Lemma others_after_invalidation (cache : QueryCache) :
  filter (fun q => negb (key_matches listKey (queryKey q)))
    (map (invalidate listKey) cache)
  = filter (fun q => negb (key_matches listKey (queryKey q))) cache.
Proof.
  apply others_after_map.
  - apply invalidate_key.
  - intros q Hq. unfold invalidate. now rewrite Hq.
Qed.

Lemma others_after_notification (payload : ChangePayload) (l : list RealtimeChannel) :
  forall c,
    filter (fun q => negb (key_matches listKey (queryKey q)))
      (queryCache (state_after (for_each l (fun _ => onPostgresChanges payload)) c))
    = filter (fun q => negb (key_matches listKey (queryKey q))) (queryCache c).
Proof.
  induction l as [|ch rest IH]; intros c; [reflexivity|].
  simpl for_each. rewrite state_after_seq, IH.
  unfold onPostgresChanges, state_after. rewrite invalidateQueries_run. simpl.
  apply others_after_invalidation.
Qed.

(** X17. No event of the component touches a cached query of another
    screen: the queries whose key does not start with [admin-panchayaths]
    are, after any event, exactly what they were. *)
Theorem other_queries_untouched (permissions : Permissions) (ev : Event) (c : Client) :
  filter (fun q => negb (key_matches listKey (queryKey q)))
    (queryCache (state_after (step permissions ev) c))
  = filter (fun q => negb (key_matches listKey (queryKey q))) (queryCache c).
Proof.
  destruct ev as [ | | |row|rowId answer|value|value|time|opened
                  |failure|failure|r|payload]; simpl step.
  - change (filter (fun q => negb (key_matches listKey (queryKey q)))
              (queryCache (state_after (step permissions Mounted) c))
            = filter (fun q => negb (key_matches listKey (queryKey q))) (queryCache c)).
    rewrite mounted_state. cbn [queryCache].
    apply others_after_upsert. apply observe_key.
  - unfold state_after. simpl. apply others_after_map.
    + intros q. now destruct (key_eqb (queryKey q) listKey).
    + intros q Hq. destruct (key_eqb (queryKey q) listKey) eqn:E; [|reflexivity].
      apply key_eqb_eq in E. rewrite E, key_matches_refl in Hq. discriminate.
  - reflexivity.
  - reflexivity.
  - destruct permissions as [w d]; destruct d, answer; reflexivity.
  - reflexivity.
  - reflexivity.
  - destruct permissions as [w d]; destruct w; [|reflexivity].
    unfold state_after, handleSubmit, savePanchayathMutation_mutationFn,
      bind, get, emit. simpl. now destruct (editingPanchayath c).
  - reflexivity.
  - destruct failure as [e|]; [reflexivity|].
    unfold state_after. simpl. apply others_after_invalidation.
  - destruct failure as [e|]; [reflexivity|].
    unfold state_after. simpl. apply others_after_invalidation.
  - unfold state_after. simpl. apply others_after_upsert. apply settle_key.
  - unfold notify. rewrite state_after_get. apply others_after_notification.
Qed.

(** *** The form dialog *)

(** X18. In every state the component can reach, with write permission the
    dialog's two inputs show strings (the name and district of the form
    state), never [undefined]; the title and the submit button name the same
    operation, editing when a selection is active and creating otherwise. *)
Theorem dialog_inputs_hold_text (permissions : Permissions) (c : Client) :
  reachable permissions c ->
  canWrite permissions = true ->
  exists n d,
    formData c = form n d
    /\ renderDialog permissions c
       = Some {| open := isDialogOpen c;
                 dialogTitle := match editingPanchayath c with
                                | Some _ => "Edit Panchayath"
                                | None => "Add New Panchayath"
                                end;
                 nameInput := Some n;
                 districtInput := Some d;
                 submitLabel := match editingPanchayath c with
                                | Some _ => "Update Panchayath"
                                | None => "Create Panchayath"
                                end |}.
Proof.
  intros Hreach Hwrite.
  destruct (reachable_form_shape permissions c Hreach) as [n [d Hform]].
  exists n, d. split; [exact Hform|].
  unfold renderDialog. rewrite Hwrite, Hform.
  now destruct (editingPanchayath c).
Qed.

Lemma dialog_inputs_hold_text_witness :
  reachable (mkPermissions true false)
    (state_after
       (step (mkPermissions true false)
          (EditClicked (mkPanchayath "7" "Areekode" "Malappuram" "" "")))
       (initial []))
  /\ canWrite (mkPermissions true false) = true
  /\ exists n d,
       formData
         (state_after
            (step (mkPermissions true false)
               (EditClicked (mkPanchayath "7" "Areekode" "Malappuram" "" "")))
            (initial []))
       = form n d
       /\ renderDialog (mkPermissions true false)
            (state_after
               (step (mkPermissions true false)
                  (EditClicked (mkPanchayath "7" "Areekode" "Malappuram" "" "")))
               (initial []))
          = Some {| open := true;
                    dialogTitle := "Edit Panchayath";
                    nameInput := Some n;
                    districtInput := Some d;
                    submitLabel := "Update Panchayath" |}.
Proof.
  assert (Hreach :
    reachable (mkPermissions true false)
      (state_after
         (step (mkPermissions true false)
            (EditClicked (mkPanchayath "7" "Areekode" "Malappuram" "" "")))
         (initial []))).
  { apply reachable_step. apply reachable_initial. }
  split; [exact Hreach|]. split; [reflexivity|].
  exact (dialog_inputs_hold_text (mkPermissions true false) _ Hreach eq_refl).
Defined.

End PanchayathsManagementMore.

(** ** The category form *)

Module CategoryFormFacts.

Import JS JSFacts JSObjectFacts CategoryForm.
Open Scope string_scope.

Lemma read_field (o : CategoryData) (k : string) : read o k = get_own o k.
Proof.
  unfold read, Get. destruct (get_own o k); [reflexivity|].
  now destruct (includes Object_prototype_names k).
Qed.

(** X19. The form is rendered exactly with write permission.  When it is,
    a change of one field (what each of the six inputs does with its own
    field) shows the new value in the input of that field and leaves the
    other five inputs, the title, the submit label and the open state as
    they were, whatever the form state held before. *)
Theorem change_updates_one_input (Category : Type) (props : Props Category)
  (field : string) (value : FieldValue) :
  let changed :=
    mkProps (isOpen props) (editingCategory props)
      (change field value (formData props)) (canWrite props) in
  match render props, render changed with
  | Some before, Some after =>
      canWrite props = true
      /\ nameInput after
         = (if String.eqb field "name" then Some value else nameInput before)
      /\ actualFeeInput after
         = (if String.eqb field "actual_fee" then Some value else actualFeeInput before)
      /\ offerFeeInput after
         = (if String.eqb field "offer_fee" then Some value else offerFeeInput before)
      /\ popupImageInput after
         = (if String.eqb field "popup_image_url" then Some value
            else popupImageInput before)
      /\ qrImageInput after
         = (if String.eqb field "qr_image_url" then Some value else qrImageInput before)
      /\ activeSwitch after
         = (if String.eqb field "is_active" then Some value else activeSwitch before)
      /\ (open after, title after, submitLabel after)
         = (open before, title before, submitLabel before)
  | None, None => canWrite props = false
  | _, _ => False
  end.
Proof.
  cbv zeta. unfold render. simpl canWrite.
  destruct (canWrite props); simpl; [|reflexivity].
  rewrite !read_field. unfold change. rewrite !get_own_spread_set.
  repeat split; reflexivity.
Qed.

End CategoryFormFacts.
